(** * Verification of the transcribe-yt chunking, history and fallback logic

    Shallow embedding of the Python sources [transcription.py],
    [summarization.py], [config.py], [download.py] and the command line
    of [transcribe_yt.py]. *)

From Stdlib Require Import ZArith Lia QArith Ascii String.
From Stdlib Require Import Sorted.
From stdpp Require Import base gmap strings list.

Open Scope Z_scope.

(* ===================================================================== *)
(** ** Audio windowing ([transcribe_audio_chunked], transcription.py) *)

(** The [while start_sample < len(audio)] loop of
    [transcribe_audio_chunked], positions in samples.  Each iteration
    yields the window [(start_sample, end_sample)] that is cut out with
    [audio[start_sample:end_sample]].  The loop is given [fuel] iterations;
    [None] means that the fuel ran out before the loop stopped. *)
Fixpoint window_loop (fuel : nat) (total_samples chunk_samples overlap_samples
    start_sample : Z) : option (list (Z * Z)) :=
  match fuel with
  | O => None
  | S fuel' =>
      if start_sample <? total_samples then
        let end_sample := Z.min (start_sample + chunk_samples) total_samples in
        (* start_sample = end_sample - overlap_samples *)
        let next := end_sample - overlap_samples in
        (* if start_sample >= len(audio) - overlap_samples: break *)
        if total_samples - overlap_samples <=? next
        then Some [(start_sample, end_sample)]
        else option_map (cons (start_sample, end_sample))
               (window_loop fuel' total_samples chunk_samples overlap_samples next)
      else Some []
  end.

(** Iteration budget: every iteration that does not stop advances
    [start_sample] by [chunk_samples - overlap_samples]. *)
Definition window_fuel (total_samples chunk_samples overlap_samples : Z) : nat :=
  Z.to_nat (total_samples / (chunk_samples - overlap_samples) + 2).

(** The windows of an audio array of [total_samples] samples at sample
    rate [sr]: [chunk_samples = chunk_duration * sr] and
    [overlap_samples = overlap_duration * sr]. *)
Definition audio_windows (total_samples sr chunk_duration overlap_duration : Z)
    : option (list (Z * Z)) :=
  let chunk_samples := chunk_duration * sr in
  let overlap_samples := overlap_duration * sr in
  window_loop (window_fuel total_samples chunk_samples overlap_samples)
    total_samples chunk_samples overlap_samples 0.

(** Shape of a window list: every window but the last is [cs] samples
    long and is followed by a window starting [os] samples before its
    end; the last window ends at [n]. *)
Inductive window_chain (cs os n : Z) : list (Z * Z) -> Prop :=
  | chain_last s e : e = n -> e - s <= cs -> window_chain cs os n [(s, e)]
  | chain_step s e s' e' ws :
      e - s = cs -> s' = e - os ->
      window_chain cs os n ((s', e') :: ws) ->
      window_chain cs os n ((s, e) :: (s', e') :: ws).

(** Window starts strictly increase (forward progress of the loop). *)
Fixpoint starts_increasing (ws : list (Z * Z)) : Prop :=
  match ws with
  | (s, _) :: (((s', _) :: _) as rest) => s < s' /\ starts_increasing rest
  | _ => True
  end.

(** The loop went on only below its stop threshold: every window but
    the last hands on a start [e - os] below [n - os]. *)
Fixpoint continues_below (os n : Z) (ws : list (Z * Z)) : Prop :=
  match ws with
  | (_, e) :: ((_ :: _) as rest) => e - os < n - os /\ continues_below os n rest
  | _ => True
  end.

(* ===================================================================== *)
(** ** Python string primitives on ASCII text *)

(** [str.isspace] on an ASCII character ([\t \n \v \f \r], the separators
    [\x1c]-[\x1f] and the space); also the class [\s] of [re]. *)
Definition is_space (c : ascii) : bool :=
  let n := nat_of_ascii c in
  (Nat.leb 9 n && Nat.leb n 13) || (Nat.leb 28 n && Nat.leb n 32).

(** [str.lstrip()]: drop leading whitespace. *)
Fixpoint lstrip (s : string) : string :=
  match s with
  | EmptyString => EmptyString
  | String c s' => if is_space c then lstrip s' else s
  end.

(** [str.rstrip()]: drop trailing whitespace. *)
Fixpoint rstrip (s : string) : string :=
  match s with
  | EmptyString => EmptyString
  | String c s' =>
      match rstrip s' with
      | EmptyString => if is_space c then EmptyString else String c EmptyString
      | r => String c r
      end
  end.

(** [str.strip()] with no argument. *)
Definition strip (s : string) : string := rstrip (lstrip s).

(** Number of maximal runs of non-whitespace characters from here on;
    [in_word] tells whether the previous character was one of a run. *)
Fixpoint count_words_aux (s : string) (in_word : bool) : nat :=
  match s with
  | EmptyString => 0
  | String c s' =>
      if is_space c then count_words_aux s' false
      else (if in_word then 0 else 1) + count_words_aux s' true
  end.

(** [len(s.split())]. *)
Definition count_words (s : string) : nat := count_words_aux s false.

(** [" ".join(l)]. *)
Definition join_space (l : list string) : string := String.concat " " l.

(** Sentence-ending punctuation [[.!?]]. *)
Definition is_punct (c : ascii) : bool :=
  match c with
  | "."%char | "!"%char | "?"%char => true
  | _ => false
  end.

(** [re.split(r'(?<=[.!?])\s+', text)]: a separator is a maximal run of
    whitespace whose first character follows one of [.!?].  [cur] is the
    current piece, reversed; [prev_punct] says whether the previous
    character is [.!?]; [in_sep] says that we are inside a separator. *)
Fixpoint split_sentences_aux (s : string) (cur : list ascii)
    (prev_punct in_sep : bool) : list string :=
  match s with
  | EmptyString => [string_of_list_ascii (rev cur)]
  | String c s' =>
      if in_sep then
        if is_space c then split_sentences_aux s' [] false true
        else split_sentences_aux s' [c] (is_punct c) false
      else if prev_punct && is_space c then
        string_of_list_ascii (rev cur) :: split_sentences_aux s' [] false true
      else split_sentences_aux s' (c :: cur) (is_punct c) false
  end.

Definition split_sentences (text : string) : list string :=
  split_sentences_aux text [] false false.

(* ===================================================================== *)
(** ** Python exceptions and the error monad *)

(** The exception classes the modelled code raises or catches. *)
Inductive exn : Type :=
  | RequestException      (* requests.RequestException, e.g. ConnectionError *)
  | HTTPError             (* raise_for_status, a RequestException *)
  | JSONDecodeError       (* response.json() on a non-JSON body *)
  | AttributeError        (* .get / .insert / .text on the wrong type *)
  | TypeError
  | OtherException.

(** A computation that returns a value or raises. *)
Inductive res (A : Type) : Type :=
  | Ok (a : A)
  | Raise (e : exn).
Arguments Ok {A} a.
Arguments Raise {A} e.

Definition res_bind {A B} (m : res A) (k : A -> res B) : res B :=
  match m with Ok a => k a | Raise e => Raise e end.

Notation "'let*' x ':=' m 'in' k" := (res_bind m (fun x => k))
  (at level 200, x name, m at level 100, k at level 200).

(** [try: m except Exception: handler]; every modelled exception is an
    [Exception]. *)
Definition try_except {A} (m : res A) (handler : exn -> A) : res A :=
  match m with Ok a => Ok a | Raise e => Ok (handler e) end.

(* ===================================================================== *)
(** ** Chunked transcription ([transcribe_audio_chunked]) *)

(** What [asr_model.transcribe([chunk_path])] does for one window: it
    raises, or returns a list of hypotheses of which we keep the [.text]. *)
Inductive asr_result : Type :=
  | AsrRaises (e : exn)
  | AsrOutput (texts : list string).

(** The [try] block of one iteration: [Some chunk_text] when a non-empty
    stripped text is to be appended. *)
Definition transcribe_chunk_try (r : asr_result) : res (option string) :=
  let* output := match r with AsrRaises e => Raise e | AsrOutput o => Ok o end in
  match output with
  | t :: _ =>
      let chunk_text := strip t in
      if String.eqb chunk_text "" then Ok None   (* empty transcription *)
      else Ok (Some chunk_text)
  | [] => Ok None                                 (* failed to transcribe *)
  end.

(** One iteration on [transcriptions]: the [except Exception] branch only
    prints. *)
Definition transcribe_chunk_step (transcriptions : list string) (r : asr_result)
    : res (list string) :=
  let* out := try_except (transcribe_chunk_try r) (fun _ => None) in
  match out with
  | Some chunk_text => Ok (transcriptions ++ [chunk_text])
  | None => Ok transcriptions
  end.

Fixpoint transcribe_chunks_loop (transcriptions : list string)
    (rs : list asr_result) : res (list string) :=
  match rs with
  | [] => Ok transcriptions
  | r :: rs' =>
      let* t := transcribe_chunk_step transcriptions r in
      transcribe_chunks_loop t rs'
  end.

(** The text of [transcribe_audio_chunked] given the ASR outcome of each
    window in window order: [" ".join(transcriptions)]. *)
Definition transcribe_chunks (rs : list asr_result) : res string :=
  let* transcriptions := transcribe_chunks_loop [] rs in
  Ok (join_space transcriptions).

(** [transcribe_audio_chunked] with the ASR backend as a function of the
    window; [None] only when the window loop would not stop. *)
Definition transcribe_audio_chunked (total_samples sr chunk_duration
    overlap_duration : Z) (asr : Z * Z -> asr_result) : option (res string) :=
  match audio_windows total_samples sr chunk_duration overlap_duration with
  | Some ws => Some (transcribe_chunks (map asr ws))
  | None => None
  end.

(** The claim's reading of a window's contribution: the stripped text of a
    successful, non-empty result; nothing otherwise. *)
Definition spec_window_text (r : asr_result) : list string :=
  match r with
  | AsrOutput (t :: _) => if String.eqb (strip t) "" then [] else [strip t]
  | _ => []
  end.

(* ===================================================================== *)
(** ** Text chunking ([chunk_text], transcription.py) *)

(** The [for sentence in sentences] loop of [chunk_text]. *)
Fixpoint chunk_loop (chunk_size : Z) (sentences : list string)
    (chunks current_chunk : list string) (current_word_count : Z) : list string :=
  match sentences with
  | [] =>
      (* if current_chunk: chunks.append(' '.join(current_chunk)) *)
      match current_chunk with
      | [] => chunks
      | _ => chunks ++ [join_space current_chunk]
      end
  | sentence :: rest =>
      let sentence_words := Z.of_nat (count_words sentence) in
      if (chunk_size <? current_word_count + sentence_words) &&
         negb (match current_chunk with [] => true | _ => false end)
      then chunk_loop chunk_size rest (chunks ++ [join_space current_chunk])
             [sentence] sentence_words
      else chunk_loop chunk_size rest chunks (current_chunk ++ [sentence])
             (current_word_count + sentence_words)
  end.

Definition chunk_text (text : string) (chunk_size : Z) : list string :=
  chunk_loop chunk_size (split_sentences text) [] [] 0.

(** Word count of a sentence group (the [current_word_count] of a chunk). *)
Definition group_words (g : list string) : Z :=
  fold_right (fun s acc => Z.of_nat (count_words s) + acc) 0 g.


(** A sentence group respects the budget, or is one oversized sentence;
    and an oversized sentence is only ever alone in its group. *)
Definition group_ok (chunk_size : Z) (g : list string) : Prop :=
  (group_words g <= chunk_size \/
   exists s, g = [s] /\ chunk_size < Z.of_nat (count_words s)) /\
  (forall s, In s g -> chunk_size < Z.of_nat (count_words s) -> g = [s]).

(* ===================================================================== *)
(** ** Extractive summarization ([generate_summary_extractive]) *)

(** [str.lower()] on ASCII text. *)
Definition ascii_lower (c : ascii) : ascii :=
  let n := nat_of_ascii c in
  if Nat.leb 65 n && Nat.leb n 90 then ascii_of_nat (n + 32) else c.

Fixpoint lower (s : string) : string :=
  match s with
  | EmptyString => EmptyString
  | String c s' => String (ascii_lower c) (lower s')
  end.

Fixpoint is_prefix (p s : string) : bool :=
  match p, s with
  | EmptyString, _ => true
  | String c p', String d s' => Ascii.eqb c d && is_prefix p' s'
  | String _ _, EmptyString => false
  end.

(** Substring test [p in s]. *)
Fixpoint contains (p s : string) : bool :=
  is_prefix p s ||
  match s with
  | EmptyString => false
  | String _ s' => contains p s'
  end.

(** Membership of a string in a list or set of strings. *)
Definition str_mem (x : string) (l : list string) : bool :=
  existsb (String.eqb x) l.

(** [sorted(xs, key=key, reverse=True)]: Python's sort is stable also in
    reverse mode, so an element goes after every element whose key is not
    smaller.  Scores are floats in the source; they are rationals here. *)
Fixpoint insert_desc {A} (key : A -> Q) (x : A) (l : list A) : list A :=
  match l with
  | [] => [x]
  | y :: l' =>
      if negb (Qle_bool (key x) (key y)) then x :: l else y :: insert_desc key x l'
  end.

Definition sorted_desc {A} (key : A -> Q) (l : list A) : list A :=
  fold_left (fun acc x => insert_desc key x acc) l [].

(** [max(3, n // 3)]. *)
Definition target_sentences (n : nat) : nat := Nat.max 3 (Nat.div n 3).

Definition newline : string := String (ascii_of_nat 10) EmptyString.

(** ["# Detailed Summary\n\n" + " ".join(selected_sentences)]. *)
Definition detailed_summary (selected : list string) : string :=
  ("# Detailed Summary" ++ newline ++ newline ++ join_space selected)%string.

(** *** Heuristic fallback path (no spaCy) *)

Definition summary_keywords : list string :=
  ["important"; "key"; "main"; "primary"; "significant"; "major";
   "conclusion"; "summary"; "overview"; "discuss"; "explain"; "describe"]%string.

(** [score_sentence]: [len(sentence.split()) / 20.0 + 2 * keyword hits]. *)
Definition score_sentence (sentence : string) : Q :=
  (inject_Z (Z.of_nat (count_words sentence)) / inject_Z 20 +
   inject_Z (2 * Z.of_nat (length (List.filter (fun k => contains k (lower sentence))
                                           summary_keywords))))%Q.

(** [scored_sentences]: only sentences of more than five words. *)
Definition scored_sentences (transcription : string) : list (string * Q) :=
  map (fun s => (s, score_sentence s))
    (List.filter (fun s => Nat.ltb 5 (count_words s)) (split_sentences transcription)).

Definition fallback_selected (transcription : string) : list string :=
  let scored := scored_sentences transcription in
  let target := target_sentences (length scored) in
  map fst (firstn target (sorted_desc snd scored)).

Definition fallback_summary (transcription : string) : string :=
  detailed_summary (fallback_selected transcription).

(** *** spaCy path *)

(** A spaCy token: [word.text], whether [word.pos_ == 'PUNCT'], and whether
    it is followed by a space ([word.whitespace_]).  The tokenizer, tagger
    and sentence splitter are the external model: a document is given as
    its list of sentences ([doc.sents]), each a list of tokens. *)
Record token := { tok_text : string; tok_punct : bool; tok_space : bool }.

Definition doc_t := list (list token).

(** [Span.text]: tokens with their trailing whitespace, except the last. *)
Fixpoint span_text (sent : list token) : string :=
  match sent with
  | [] => EmptyString
  | [t] => tok_text t
  | t :: rest =>
      (tok_text t ++ (if tok_space t then " " else "") ++ span_text rest)%string
  end.

(** The [word_frequencies] dict, in insertion order. *)
Fixpoint freq_incr (w : string) (freqs : list (string * nat)) : list (string * nat) :=
  match freqs with
  | [] => [(w, 1%nat)]
  | (k, n) :: rest =>
      if String.eqb k w then (k, S n) :: rest else (k, n) :: freq_incr w rest
  end.

Section Spacy.
(** [spacy.lang.en.stop_words.STOP_WORDS]. *)
Variable STOP_WORDS : list string.

Definition counted_word (word : token) : bool :=
  negb (str_mem (lower (tok_text word)) STOP_WORDS) &&
  negb (str_mem (lower (tok_text word))
          [newline; String (ascii_of_nat 9) EmptyString; " "%string]) &&
  negb (tok_punct word).

(** [for word in doc: ...]: counts keyed by [word.text]. *)
Definition word_counts (doc : doc_t) : list (string * nat) :=
  fold_left (fun freqs word =>
               if counted_word word then freq_incr (tok_text word) freqs else freqs)
    (concat doc) [].

(** [max(word_frequencies.values()) if word_frequencies else 1]. *)
Definition max_frequency (counts : list (string * nat)) : nat :=
  match counts with
  | [] => 1%nat
  | _ => fold_right (fun kv m => Nat.max (snd kv) m) 0%nat counts
  end.

(** The normalized [word_frequencies]. *)
Definition word_frequencies (doc : doc_t) : list (string * Q) :=
  let counts := word_counts doc in
  let m := max_frequency counts in
  map (fun kv => (fst kv, (inject_Z (Z.of_nat (snd kv)) / inject_Z (Z.of_nat m))%Q)) counts.

Definition freq_lookup (w : string) (freqs : list (string * Q)) : option Q :=
  option_map snd (find (fun kv => String.eqb (fst kv) w) freqs).

(** The entry of [sentence_scores] for one sentence: created by its
    first word whose lower-cased text is a key, then summed. *)
Definition sentence_score (freqs : list (string * Q)) (sent : list token) : option Q :=
  fold_left (fun acc word =>
               match freq_lookup (lower (tok_text word)) freqs with
               | Some f => Some (match acc with None => f | Some a => (a + f)%Q end)
               | None => acc
               end) sent None.

(** [sentence_scores] in insertion (sentence) order. *)
Definition sentence_scores (doc : doc_t) : list (list token * Q) :=
  let freqs := word_frequencies doc in
  flat_map (fun sent => match sentence_score freqs sent with
                        | Some q => [(sent, q)]
                        | None => []
                        end) doc.

Definition spacy_selected (doc : doc_t) : list string :=
  let target := target_sentences (length doc) in
  map (fun p => strip (span_text (fst p)))
    (firstn target (sorted_desc snd (sentence_scores doc))).

Definition spacy_summary (doc : doc_t) : string :=
  detailed_summary (spacy_selected doc).
End Spacy.

(* ===================================================================== *)
(** ** Configuration ([config.py]) *)

Set Warnings "-register-all".

(** The JSON values of the configuration file. *)
Inductive json : Type :=
  | JNull
  | JBool (b : bool)
  | JInt (z : Z)
  | JStr (s : string)
  | JList (l : list json)
  | JObject (kvs : list (string * json)).

(** The state of [~/.transcribe-yt/config.json]: absent, unreadable
    ([json.JSONDecodeError] or [IOError] on load), or a JSON object.  The
    file written by [json.dump] of a dict with string keys reads back with
    [json.load] as the same mapping, so a written file is the mapping. *)
Inductive config_file : Type :=
  | FileMissing
  | FileUnreadable
  | FileObject (config : gmap string json).

(** The [default_config] literal of [load_config]. *)
Definition default_config_items : list (string * json) :=
  [("deepseek_api_key", JNull);
   ("ollama_model", JStr "vicuna:7b");
   ("ollama_formatting_model", JStr "nous-hermes2-mixtral:latest");
   ("use_ollama_formatting", JBool true);
   ("chunk_duration", JInt 300);
   ("overlap_duration", JInt 30);
   ("summary_chunk_size", JNull);
   ("link_history", JList [])]%string.

Definition default_config : gmap string json := list_to_map default_config_items.

(** [for key, value in default_config.items(): if key not in config:
    config[key] = value]. *)
Definition merge_defaults (config : gmap string json) : gmap string json :=
  fold_left (fun cfg kv =>
               match cfg !! kv.1 with
               | None => <[kv.1 := kv.2]> cfg
               | Some _ => cfg
               end) default_config_items config.

Definition load_config (f : config_file) : gmap string json :=
  match f with
  | FileMissing => default_config
  | FileUnreadable => default_config
  | FileObject config => merge_defaults config
  end.

(** [save_config]: [json.dump(config, f)]; the write is taken to succeed. *)
Definition save_config (config : gmap string json) : config_file :=
  FileObject config.

(** The [history_entry] dict; the id (a uuid, or a timestamp in
    transcribe_yt.py), the title and the timestamp are inputs. *)
Definition history_entry (link_id url title timestamp : string) : json :=
  JObject [("id", JStr link_id); ("url", JStr url); ("title", JStr title);
           ("timestamp", JStr timestamp)]%string.

(** [save_link_to_history] (config.py; the transcribe_yt.py copy is the
    same up to how the id is made): load, insert at position 0, keep
    [[:50]], save.  [.insert] on a non-list value raises. *)
Definition save_link_to_history (f : config_file) (entry : json) : res config_file :=
  let config := load_config f in
  let config := match config !! "link_history"%string with
                | None => <["link_history"%string := JList []]> config
                | Some _ => config
                end in
  match config !! "link_history"%string with
  | Some (JList l) =>
      let config := <["link_history"%string := JList (firstn 50 (entry :: l))]> config in
      Ok (save_config config)
  | _ => Raise AttributeError
  end.

(** Successive calls of [save_link_to_history]. *)
Fixpoint save_links (f : config_file) (entries : list json) : res config_file :=
  match entries with
  | [] => Ok f
  | e :: es => let* f' := save_link_to_history f e in save_links f' es
  end.

(** [load_link_history] when the stored value is a list. *)
Definition loaded_history (f : config_file) : option (list json) :=
  match load_config f !! "link_history"%string with
  | Some (JList l) => Some l
  | _ => None
  end.

(* ===================================================================== *)
(** ** Optional formatting pass ([apply_ollama_formatting]) *)

(** What [requests.post(...)] does: raise, or return a response with a
    status code and a body that parses as JSON or does not. *)
Inductive http_outcome : Type :=
  | PostRaises (e : exn)
  | PostResponse (status : Z) (body : option json).

(** [except requests.RequestException]: [HTTPError] and, from requests
    2.27 on, [requests.JSONDecodeError] are subclasses. *)
Definition is_request_exception (e : exn) : bool :=
  match e with
  | RequestException | HTTPError | JSONDecodeError => true
  | _ => false
  end.

(** [d.get(key, default)] on a parsed JSON value: only dicts have [.get];
    with duplicate keys [json.loads] keeps the last one. *)
Definition py_get (d : json) (key : string) (default : json) : res json :=
  match d with
  | JObject kvs =>
      match find (fun kv => String.eqb kv.1 key) (rev kvs) with
      | Some kv => Ok kv.2
      | None => Ok default
      end
  | _ => Raise AttributeError
  end.

(** Python truthiness of a JSON value. *)
Definition truthy (j : json) : bool :=
  match j with
  | JNull => false
  | JBool b => b
  | JInt z => negb (Z.eqb z 0)
  | JStr s => negb (String.eqb s "")
  | JList l => negb (Nat.eqb (length l) 0)
  | JObject kvs => negb (Nat.eqb (length kvs) 0)
  end.

(** The body of the [try] block of [apply_ollama_formatting]. *)
Definition ollama_format_request (summary_text : string) (out : http_outcome) : res json :=
  match out with
  | PostRaises e => Raise e
  | PostResponse status body =>
      (* response.raise_for_status() *)
      if (400 <=? status) && (status <? 600) then Raise HTTPError else
      (* result = response.json() *)
      let* result := match body with Some j => Ok j | None => Raise JSONDecodeError end in
      let* message := py_get result "message" (JObject []) in
      let* formatted_summary := py_get message "content" (JStr "") in
      if truthy formatted_summary then Ok formatted_summary
      else Ok (JStr summary_text)
  end.

Definition apply_ollama_formatting (summary_text : string) (out : http_outcome) : res json :=
  match ollama_format_request summary_text out with
  | Ok v => Ok v
  | Raise e => if is_request_exception e then Ok (JStr summary_text) else Raise e
  end.

(** [apply_ollama_formatting_if_enabled]: [except Exception] returns the
    original text. *)
Definition apply_ollama_formatting_if_enabled (summary_text : string)
    (use_ollama_formatting : bool) (out : http_outcome) : res json :=
  if use_ollama_formatting then
    try_except (apply_ollama_formatting summary_text out) (fun _ => JStr summary_text)
  else Ok (JStr summary_text).

(* ===================================================================== *)
(** ** Link history: loading and removal ([config.py]) *)

(** [load_link_history]: [config.get("link_history", [])]. *)
Definition load_link_history (f : config_file) : json :=
  match load_config f !! "link_history"%string with
  | Some v => v
  | None => JList []
  end.

(** The condition [entry.get("id") != link_id] of one entry: only dicts
    have [.get], and any value but the string [link_id] is unequal. *)
Definition keep_entry (link_id : string) (entry : json) : res bool :=
  let* v := py_get entry "id" JNull in
  Ok (match v with JStr s => negb (String.eqb s link_id) | _ => true end).

(** The list comprehension over a list, left to right. *)
Fixpoint filter_entries (link_id : string) (entries : list json) : res (list json) :=
  match entries with
  | [] => Ok []
  | entry :: rest =>
      let* keep := keep_entry link_id entry in
      let* kept := filter_entries link_id rest in
      Ok (if keep then entry :: kept else kept)
  end.

(** [[entry for entry in value if ...]] for any stored value: iterating
    a string yields strings and iterating a dict yields its keys, none of
    which has [.get]; [None], booleans and numbers are not iterable. *)
Definition history_comprehension (link_id : string) (value : json) : res (list json) :=
  match value with
  | JList entries => filter_entries link_id entries
  | JStr s => if String.eqb s "" then Ok [] else Raise AttributeError
  | JObject kvs => match kvs with [] => Ok [] | _ => Raise AttributeError end
  | JNull | JBool _ | JInt _ => Raise TypeError
  end.

(** [remove_link_from_history] (config.py, and its transcribe_yt.py
    copy): nothing is written when the key is absent. *)
Definition remove_link_from_history (f : config_file) (link_id : string) : res config_file :=
  let config := load_config f in
  match config !! "link_history"%string with
  | Some value =>
      let* kept := history_comprehension link_id value in
      Ok (save_config (<["link_history"%string := JList kept]> config))
  | None => Ok f
  end.

(** An entry whose [.get("id")] is the string [link_id]. *)
Definition has_id (link_id : string) (entry : json) : bool :=
  match py_get entry "id" JNull with
  | Ok (JStr s) => String.eqb s link_id
  | _ => false
  end.

Definition is_dict (j : json) : bool :=
  match j with JObject _ => true | _ => false end.

(* ===================================================================== *)
(** ** Video title ([get_video_title], download.py) *)

(** The exceptions [subprocess.run] may raise here. *)
Inductive proc_exn : Type :=
  | CalledProcessError
  | TimeoutExpired
  | FileNotFoundError
  | OtherProcessError.

(** What [subprocess.run(cmd, capture_output=True, text=True, timeout=30)]
    does: raise, or finish with a return code and its standard output. *)
Inductive proc_outcome : Type :=
  | RunRaises (e : proc_exn)
  | RunDone (returncode : Z) (stdout : string).

Definition unknown_title : string := "Unknown Title".

(** [get_video_title] (download.py, and its transcribe_yt.py copy). *)
Definition get_video_title (result : proc_outcome) : res string :=
  match result with
  | RunDone returncode stdout =>
      if (returncode =? 0) && negb (String.eqb (strip stdout) "")
      then Ok (strip stdout)
      else Ok unknown_title
  | RunRaises OtherProcessError => Raise OtherException
  | RunRaises _ => Ok unknown_title
  end.

(* ===================================================================== *)
(** ** Subtitles to text ([convert_srt_to_text], download.py) *)

(** The newline character. *)
Definition nl : ascii := ascii_of_nat 10.

(** [s.split('\n')]. *)
Fixpoint split_newline (s : string) : list string :=
  match s with
  | EmptyString => [EmptyString]
  | String c s' =>
      if Ascii.eqb c (ascii_of_nat 10) then EmptyString :: split_newline s'
      else match split_newline s' with
           | [] => [String c EmptyString]
           | piece :: rest => String c piece :: rest
           end
  end.

Definition is_ascii_digit (c : ascii) : bool :=
  let n := nat_of_ascii c in Nat.leb 48 n && Nat.leb n 57.

(** [str.isdigit()] on ASCII text: non-empty and all of [0-9]. *)
Definition isdigit (s : string) : bool :=
  negb (String.eqb s "") && forallb is_ascii_digit (list_ascii_of_string s).

(** [not line or line.isdigit() or '-->' in line]. *)
Definition skip_line (line : string) : bool :=
  String.eqb line "" || isdigit line || contains "-->" line.

(** The [while i < len(lines)] loop. *)
Fixpoint srt_loop (lines text_lines : list string) : list string :=
  match lines with
  | [] => text_lines
  | l :: rest =>
      let line := strip l in
      if skip_line line then srt_loop rest text_lines
      else srt_loop rest (text_lines ++ [line])
  end.

Definition srt_text_lines (srt_content : string) : list string :=
  srt_loop (split_newline srt_content) [].

(** [f.read()] of a file opened with [open(srt_path, 'r')]: text mode
    with universal newlines reads ["\r\n"] and a lone ["\r"] as ["\n"]. *)
Fixpoint read_text (s : string) : string :=
  match s with
  | EmptyString => EmptyString
  | String c s' =>
      if Ascii.eqb c (ascii_of_nat 13) then
        match s' with
        | EmptyString => String nl EmptyString
        | String d s'' =>
            if Ascii.eqb d nl then String nl (read_text s'')
            else String nl (read_text s')
        end
      else String c (read_text s')
  end.

(** The text that [convert_srt_to_text] writes to the [.txt] file (the
    function itself returns that file's path), as a function of the
    characters stored in the [.srt] file. *)
Definition convert_srt_to_text (srt_file_content : string) : string :=
  join_space (srt_text_lines (read_text srt_file_content)).

(** A string without a newline character. *)
Definition no_newline (s : string) : bool :=
  forallb (fun c => negb (Ascii.eqb c (ascii_of_nat 10))) (list_ascii_of_string s).






(* ===================================================================== *)
(** ** Chunked LLM summaries ([generate_summary_deepseek],
       [generate_summary_ollama]) *)

(** [str(n)] for a natural number. *)
Fixpoint decimal_aux (fuel n : nat) (acc : string) : string :=
  match fuel with
  | O => acc
  | S fuel' =>
      let acc' := String (ascii_of_nat (48 + n mod 10)) acc in
      if Nat.ltb n 10 then acc' else decimal_aux fuel' (n / 10) acc'
  end.

Definition str_nat (n : nat) : string := decimal_aux (S n) n EmptyString.

(** [f"## Chunk {i} Summary\n\n{chunk_summary}\n"]. *)
Definition chunk_section (i : nat) (chunk_summary : string) : string :=
  ("## Chunk " ++ str_nat i ++ " Summary" ++ newline ++ newline ++
   chunk_summary ++ newline)%string.

Definition chunk_error_text : string := "*Error processing this chunk*".

(** The [for i, chunk in enumerate(chunks, 1)] loop.  [request i chunk]
    is what formatting the prompt of chunk [i] and the [try] block's
    request give: the [chunk_summary] text, or the exception raised.  The
    prompt's [.format] is outside the [try], but what it raises is not a
    [RequestException], so it propagates in the same way. *)
Fixpoint summary_chunks_loop (request : nat -> string -> res string) (i : nat)
    (chunks chunk_summaries : list string) : res (list string) :=
  match chunks with
  | [] => Ok chunk_summaries
  | chunk :: rest =>
      match request i chunk with
      | Ok chunk_summary =>
          summary_chunks_loop request (S i) rest
            (chunk_summaries ++ [chunk_section i chunk_summary])
      | Raise e =>
          if is_request_exception e
          then summary_chunks_loop request (S i) rest
                 (chunk_summaries ++ [chunk_section i chunk_error_text])
          else Raise e
      end
  end.

(** The [if chunk_size and chunk_size > 0] branch: the final summary. *)
Definition chunked_summary (request : nat -> string -> res string)
    (transcription : string) (chunk_size : Z) : res string :=
  let chunks := chunk_text transcription chunk_size in
  let* chunk_summaries := summary_chunks_loop request 1 chunks [] in
  Ok ("# Detailed Summary" ++ newline ++ newline ++
      String.concat newline chunk_summaries)%string.

(** The text of the section of chunk [i]: its summary, or the
    placeholder when the request failed. *)
Definition section_body (request : nat -> string -> res string) (i : nat)
    (chunk : string) : string :=
  match request i chunk with
  | Ok s => s
  | Raise _ => chunk_error_text
  end.

(* ===================================================================== *)
(** ** Command line ([main], transcribe_yt.py) *)

(** The [--set-api-key], [--set-chunk-duration], [--set-overlap-duration]
    and [--set-summary-chunk-size] commands: [if args.set_...:] then
    [config = load_config()], one assignment, [save_config(config)]; a
    value that is not truthy ([0], an empty string, or the option left
    out) runs no command and leaves the file as it is. *)
Definition set_config_value (f : config_file) (key : string) (value : json) : config_file :=
  if truthy value then
    let config := load_config f in
    save_config (<[key := value]> config)
  else f.

Definition stars (n : nat) : string := string_of_list_ascii (repeat "*"%char n).

(** [--show-config] on a non-empty string key:
    [value[:8] + "*" * (len(value) - 8) if len(value) > 8 else "*" * len(value)]. *)
Definition mask_api_key (value : string) : string :=
  if Nat.ltb 8 (String.length value)
  then (substring 0 8 value ++ stars (String.length value - 8))%string
  else stars (String.length value).

(** The Ollama model of the summary step:
    [config.get("ollama_model", args.ollama_model)]. *)
Definition summary_ollama_model (f : config_file) (arg_ollama_model : string) : json :=
  match load_config f !! "ollama_model"%string with
  | Some v => v
  | None => JStr arg_ollama_model
  end.

(** The DeepSeek step: [api_key = config.get("deepseek_api_key")]; [None]
    stands for the [ValueError] raised when the key is not truthy. *)
Definition deepseek_api_key (f : config_file) : option json :=
  match load_config f !! "deepseek_api_key"%string with
  | Some v => if truthy v then Some v else None
  | None => None
  end.

(* ===================================================================== *)
(** ** Proofs: audio windowing *)

Lemma window_loop_fuel_mono (n cs os : Z) (k : nat) :
  forall s ws, window_loop k n cs os s = Some ws ->
  forall k', (k <= k')%nat -> window_loop k' n cs os s = Some ws.
Proof.
  induction k as [|k IH]; intros s ws H k' Hk; [discriminate|].
  destruct k' as [|k']; [lia|].
  simpl in *. destruct (s <? n); [|exact H].
  destruct (n - os <=? Z.min (s + cs) n - os); [exact H|].
  destruct (window_loop k n cs os (Z.min (s + cs) n - os)) as [r|] eqn:E;
    [|discriminate].
  rewrite (IH _ _ E k' ltac:(lia)). exact H.
Qed.

Lemma window_loop_head (n cs os : Z) (k : nat) :
  forall s s1 e1 ws, window_loop k n cs os s = Some ((s1, e1) :: ws) -> s1 = s.
Proof.
  destruct k as [|k]; intros s s1 e1 ws H; [discriminate|].
  simpl in H. destruct (s <? n); [|discriminate].
  destruct (n - os <=? _); [injection H; intros; subst; reflexivity|].
  destruct (window_loop k n cs os _); simpl in H; [|discriminate].
  injection H; intros; subst; reflexivity.
Qed.

Lemma window_loop_some (n cs os : Z) :
  os < cs ->
  forall k s, (1 <= k)%nat -> n - s < (Z.of_nat k - 1) * (cs - os) ->
  exists ws, window_loop k n cs os s = Some ws /\ starts_increasing ws.
Proof.
  intros Hlt k. induction k as [|k IH]; intros s Hk Hb; [lia|].
  simpl. destruct (s <? n) eqn:Hs; [|exists []; split; [reflexivity|exact I]].
  apply Z.ltb_lt in Hs.
  destruct (n - os <=? Z.min (s + cs) n - os) eqn:Hstop.
  - exists [(s, Z.min (s + cs) n)]. split; [reflexivity|exact I].
  - apply Z.leb_gt in Hstop.
    assert (Hmin : Z.min (s + cs) n = s + cs) by lia.
    rewrite Hmin in *.
    destruct k as [|k].
    + exfalso. simpl in Hb. lia.
    + destruct (IH (s + cs - os)) as [ws [Hws Hinc]]; [lia| |].
      { rewrite Nat2Z.inj_succ in Hb. nia. }
      rewrite Hws. simpl. exists ((s, s + cs) :: ws). split; [reflexivity|].
      destruct ws as [|[s1 e1] ws]; [exact I|].
      split; [|exact Hinc].
      apply window_loop_head in Hws. lia.
Qed.

Lemma window_fuel_enough (n cs os : Z) :
  0 <= n -> os < cs ->
  (1 <= window_fuel n cs os)%nat /\
  n - 0 < (Z.of_nat (window_fuel n cs os) - 1) * (cs - os).
Proof.
  intros Hn Hlt. unfold window_fuel.
  assert (0 <= n / (cs - os)) by (apply Z.div_pos; lia).
  rewrite Z2Nat.id by lia.
  split; [lia|].
  pose proof (Z.mul_div_le n (cs - os) ltac:(lia)).
  pose proof (Z.mod_pos_bound n (cs - os) ltac:(lia)).
  pose proof (Z.div_mod n (cs - os) ltac:(lia)).
  nia.
Qed.

Lemma window_loop_chain (n cs os : Z) :
  0 <= os ->
  forall k s ws, s < n -> window_loop k n cs os s = Some ws ->
  exists e ws', ws = (s, e) :: ws' /\ window_chain cs os n ws.
Proof.
  intros Hos k. induction k as [|k IH]; intros s ws Hs H; [discriminate|].
  simpl in H. apply Z.ltb_lt in Hs as Hs'. rewrite (proj2 (Z.ltb_lt _ _) Hs) in H.
  destruct (n - os <=? Z.min (s + cs) n - os) eqn:Hstop.
  - apply Z.leb_le in Hstop. injection H as <-.
    exists (Z.min (s + cs) n), []. split; [reflexivity|].
    apply chain_last; lia.
  - apply Z.leb_gt in Hstop.
    assert (Hmin : Z.min (s + cs) n = s + cs) by lia.
    rewrite Hmin in *.
    destruct (window_loop k n cs os (s + cs - os)) as [r|] eqn:E;
      [|discriminate].
    simpl in H. injection H as <-.
    destruct (IH (s + cs - os) r ltac:(lia) E) as [e' [r' [-> Hc]]].
    exists (s + cs), ((s + cs - os, e') :: r'). split; [reflexivity|].
    apply chain_step; [lia|reflexivity|exact Hc].
Qed.

Lemma window_loop_continues_below (n cs os : Z) (k : nat) :
  forall s ws, window_loop k n cs os s = Some ws -> continues_below os n ws.
Proof.
  induction k as [|k IH]; intros s ws H; [discriminate|].
  simpl in H. destruct (s <? n); [|injection H as <-; exact I].
  destruct (n - os <=? Z.min (s + cs) n - os) eqn:Hstop;
    [injection H as <-; exact I|].
  apply Z.leb_gt in Hstop.
  destruct (window_loop k n cs os (Z.min (s + cs) n - os)) as [r|] eqn:E;
    [|discriminate].
  simpl in H. injection H as <-.
  specialize (IH _ _ E).
  destruct r as [|[s1 e1] r]; [exact I|].
  split; [exact Hstop|exact IH].
Qed.

Lemma audio_windows_terminates (n sr C O : Z) :
  0 <= n -> 0 < sr -> O < C ->
  exists ws, window_loop (window_fuel n (C * sr) (O * sr)) n (C * sr) (O * sr) 0
             = Some ws /\ starts_increasing ws.
Proof.
  intros Hn Hsr HOC.
  assert (Hlt : O * sr < C * sr) by nia.
  destruct (window_fuel_enough n (C * sr) (O * sr) Hn Hlt) as [H1 H2].
  apply (window_loop_some n (C * sr) (O * sr) Hlt); [exact H1|lia].
Qed.

(* ===================================================================== *)
(** ** Claims: audio windowing *)

(** Claim C2: for every sample array of length [n], sample rate [sr > 0]
    and [overlap_duration < chunk_duration], the window loop of
    [transcribe_audio_chunked] terminates: within [window_fuel] iterations
    it stops (more fuel changes nothing), every window's start is strictly
    after the previous one (forward progress), and the loop only continued
    after a window whose hand-on start was below
    [total_samples - overlap_samples]: it stops as soon as the start
    reaches that threshold. *)
Theorem transcribe_windows_terminate (n sr chunk_duration overlap_duration : Z) :
  0 <= n -> 0 < sr -> overlap_duration < chunk_duration ->
  exists ws,
    audio_windows n sr chunk_duration overlap_duration = Some ws /\
    (forall fuel,
       (window_fuel n (chunk_duration * sr) (overlap_duration * sr) <= fuel)%nat ->
       window_loop fuel n (chunk_duration * sr) (overlap_duration * sr) 0 = Some ws) /\
    starts_increasing ws /\
    continues_below (overlap_duration * sr) n ws.
Proof.
  intros Hn Hsr HOC.
  destruct (audio_windows_terminates n sr chunk_duration overlap_duration Hn Hsr HOC)
    as [ws [Hws Hinc]].
  exists ws. split; [exact Hws|]. split.
  - intros fuel Hf. exact (window_loop_fuel_mono _ _ _ _ _ _ Hws fuel Hf).
  - split; [exact Hinc|]. exact (window_loop_continues_below _ _ _ _ _ _ Hws).
Qed.

Lemma transcribe_windows_terminate_witness :
  exists ws,
    audio_windows 700 1 300 30 = Some ws /\
    (forall fuel, (window_fuel 700 (300 * 1) (30 * 1) <= fuel)%nat ->
       window_loop fuel 700 (300 * 1) (30 * 1) 0 = Some ws) /\
    starts_increasing ws /\ continues_below (30 * 1) 700 ws.
Proof.
  apply (transcribe_windows_terminate 700 1 300 30); lia.
Defined.

(** Claim C1: for an audio of [n] samples at rate [sr] that is longer than
    [chunk_duration] ([chunk_duration * sr < n]) with
    [0 <= overlap_duration < chunk_duration], the windows of
    [transcribe_audio_chunked] start at sample 0, each window after the
    first starts [overlap_duration * sr] samples before the previous
    window's end, every window but the last has length
    [chunk_duration * sr], and the last ends at [n] (coverage reaches the
    duration).  With 700 s, 300 s chunks and 30 s overlap the windows are
    [0,300), [270,570), [540,700) (at 1 Hz and at 16 kHz). *)
Theorem transcribe_windows_shape :
  audio_windows 700 1 300 30 = Some [(0, 300); (270, 570); (540, 700)] /\
  audio_windows (700 * 16000) 16000 300 30 =
    Some [(0, 300 * 16000); (270 * 16000, 570 * 16000); (540 * 16000, 700 * 16000)] /\
  forall n sr chunk_duration overlap_duration,
    0 <= overlap_duration -> overlap_duration < chunk_duration -> 0 < sr ->
    chunk_duration * sr < n ->
    exists e0 ws,
      audio_windows n sr chunk_duration overlap_duration = Some ((0, e0) :: ws) /\
      window_chain (chunk_duration * sr) (overlap_duration * sr) n ((0, e0) :: ws).
Proof.
  split; [vm_compute; reflexivity|]. split; [vm_compute; reflexivity|].
  intros n sr C O HO HOC Hsr Hn.
  destruct (audio_windows_terminates n sr C O ltac:(nia) Hsr HOC) as [ws [Hws _]].
  assert (Hpos : 0 < n) by nia.
  destruct (window_loop_chain n (C * sr) (O * sr) ltac:(nia) _ 0 ws Hpos Hws)
    as [e0 [ws' [-> Hc]]].
  exists e0, ws'. split; [exact Hws|exact Hc].
Qed.

Lemma transcribe_windows_shape_witness :
  exists e0 ws,
    audio_windows 700 1 300 30 = Some ((0, e0) :: ws) /\
    window_chain (300 * 1) (30 * 1) 700 ((0, e0) :: ws).
Proof.
  destruct transcribe_windows_shape as [_ [_ H]].
  apply (H 700 1 300 30); lia.
Defined.

(* ===================================================================== *)
(** ** Proofs: chunked transcription *)

Lemma transcribe_chunk_step_spec (acc : list string) (r : asr_result) :
  transcribe_chunk_step acc r = Ok (acc ++ spec_window_text r).
Proof.
  destruct r as [e|[|t ts]]; simpl; try (rewrite app_nil_r; reflexivity).
  unfold transcribe_chunk_step, transcribe_chunk_try; simpl.
  destruct (String.eqb (strip t) ""); simpl; [rewrite app_nil_r|]; reflexivity.
Qed.

Lemma transcribe_chunks_loop_spec (rs : list asr_result) :
  forall acc, transcribe_chunks_loop acc rs = Ok (acc ++ flat_map spec_window_text rs).
Proof.
  induction rs as [|r rs IH]; intros acc; simpl.
  - rewrite app_nil_r. reflexivity.
  - rewrite transcribe_chunk_step_spec. simpl. rewrite IH, app_assoc. reflexivity.
Qed.

Lemma transcribe_chunks_spec (rs : list asr_result) :
  transcribe_chunks rs = Ok (join_space (flat_map spec_window_text rs)).
Proof.
  unfold transcribe_chunks. rewrite transcribe_chunks_loop_spec. reflexivity.
Qed.

(* ===================================================================== *)
(** ** Claims: chunked transcription *)

(** Claim C3: for every sequence of per-window ASR outcomes, chunked
    transcription never raises; its text is the single-space join of the
    stripped texts of the successful windows whose stripped text is
    non-empty, in window order; a window that raises, returns no output or
    yields an empty text contributes nothing (removing it leaves the result
    unchanged: no gap marker); and every joined text is non-empty. *)
Theorem transcribe_chunks_skip_failures :
  forall rs : list asr_result,
    transcribe_chunks rs = Ok (join_space (flat_map spec_window_text rs)) /\
    Forall (fun t => t <> ""%string) (flat_map spec_window_text rs) /\
    (forall rs1 rs2 e,
       transcribe_chunks (rs1 ++ AsrRaises e :: rs2) = transcribe_chunks (rs1 ++ rs2)) /\
    (forall rs1 rs2 t,
       strip t = ""%string ->
       transcribe_chunks (rs1 ++ AsrOutput [t] :: rs2) = transcribe_chunks (rs1 ++ rs2)).
Proof.
  intros rs. split; [apply transcribe_chunks_spec|]. split; [|split].
  - induction rs as [|r rs IH]; simpl; [constructor|].
    apply Forall_app; split; [|exact IH].
    destruct r as [e|[|t ts]]; simpl; try constructor.
    destruct (String.eqb (strip t) "") eqn:E; constructor; [|constructor].
    intros H. rewrite H in E. discriminate.
  - intros rs1 rs2 e. rewrite !transcribe_chunks_spec, !flat_map_app. reflexivity.
  - intros rs1 rs2 t Ht. rewrite !transcribe_chunks_spec, !flat_map_app.
    simpl. rewrite Ht. reflexivity.
Qed.

Lemma transcribe_chunks_skip_failures_witness :
  transcribe_chunks ([AsrOutput ["hello"%string]] ++ AsrOutput [" "%string] ::
                     [AsrOutput ["world"%string]]) =
  transcribe_chunks ([AsrOutput ["hello"%string]] ++ [AsrOutput ["world"%string]]).
Proof.
  destruct (transcribe_chunks_skip_failures []) as [_ [_ [_ H]]].
  apply H. reflexivity.
Defined.

(* ===================================================================== *)
(** ** Proofs: text chunking *)

Lemma count_words_aux_app_space (a b : string) :
  forall f, count_words_aux (a ++ String " " b) f =
            (count_words_aux a f + count_words_aux b false)%nat.
Proof.
  induction a as [|c a IH]; intros f; simpl; [reflexivity|].
  destruct (is_space c); rewrite IH; [reflexivity|lia].
Qed.

Lemma group_words_join (g : list string) :
  Z.of_nat (count_words (join_space g)) = group_words g.
Proof.
  induction g as [|x g IH]; [reflexivity|].
  destruct g as [|y g].
  - unfold join_space, group_words. simpl. lia.
  - change (join_space (x :: y :: g)) with (x ++ String " " (join_space (y :: g)))%string.
    unfold count_words in *. rewrite count_words_aux_app_space.
    change (group_words (x :: y :: g))
      with (Z.of_nat (count_words x) + group_words (y :: g)).
    rewrite Nat2Z.inj_add, IH. reflexivity.
Qed.

Lemma group_words_nonneg (g : list string) : 0 <= group_words g.
Proof. induction g; simpl; lia. Qed.

Lemma group_words_app (g1 g2 : list string) :
  group_words (g1 ++ g2) = group_words g1 + group_words g2.
Proof. induction g1; simpl; lia. Qed.

Section Chunking.
Variable chunk_size : Z.

Lemma chunk_loop_groups (ss : list string) :
  forall chunks cur cnt,
    cnt = group_words cur -> (cur = [] \/ group_ok chunk_size cur) ->
    exists groups,
      chunk_loop chunk_size ss chunks cur cnt = chunks ++ map join_space groups /\
      concat groups = cur ++ ss /\
      Forall (fun g => g <> []) groups /\
      Forall (group_ok chunk_size) groups.
Proof.
  induction ss as [|s ss IH]; intros chunks cur cnt Hcnt Hcur; simpl.
  - destruct cur as [|x cur].
    + exists []. rewrite !app_nil_r. split; [reflexivity|].
      split; [reflexivity|]. split; constructor.
    + destruct Hcur as [Hcur|Hcur]; [discriminate|].
      exists [x :: cur]. split; [reflexivity|].
      split; [simpl; rewrite !app_nil_r; reflexivity|].
      split; constructor; [discriminate|constructor|exact Hcur|constructor].
  - pose proof (Nat2Z.is_nonneg (count_words s)) as Hw.
    pose proof (group_words_nonneg cur) as Hg.
    destruct (chunk_size <? cnt + Z.of_nat (count_words s)) eqn:Hb;
      destruct cur as [|x cur'] eqn:Hc; simpl.
    + (* empty current chunk: append *)
      destruct (IH chunks [s] (cnt + Z.of_nat (count_words s))) as [gs [H1 [H2 [H3 H4]]]].
      { simpl in Hcnt |- *. lia. }
      { right. unfold group_ok. split.
        - destruct (Z.le_gt_cases (Z.of_nat (count_words s)) chunk_size);
            [left; simpl; lia|right; exists s; split; [reflexivity|lia]].
        - intros s' [<-|[]] _. reflexivity. }
      exists gs. simpl. split; [exact H1|]. split; [exact H2|]. split; assumption.
    + (* budget exceeded: close the current chunk *)
      apply Z.ltb_lt in Hb.
      destruct (IH (chunks ++ [join_space (x :: cur')]) [s] (Z.of_nat (count_words s)))
        as [gs [H1 [H2 [H3 H4]]]].
      { simpl. lia. }
      { right. unfold group_ok. split.
        - destruct (Z.le_gt_cases (Z.of_nat (count_words s)) chunk_size);
            [left; simpl; lia|right; exists s; split; [reflexivity|lia]].
        - intros s' [<-|[]] _. reflexivity. }
      exists ((x :: cur') :: gs). split.
      { rewrite H1, <- app_assoc. reflexivity. }
      split; [simpl; rewrite H2; reflexivity|].
      destruct Hcur as [Hcur|Hcur]; [discriminate|].
      split; constructor; try assumption; discriminate.
    + destruct (IH chunks [s] (cnt + Z.of_nat (count_words s))) as [gs [H1 [H2 [H3 H4]]]].
      { simpl in Hcnt |- *. lia. }
      { right. unfold group_ok. split.
        - destruct (Z.le_gt_cases (Z.of_nat (count_words s)) chunk_size);
            [left; simpl; lia|right; exists s; split; [reflexivity|lia]].
        - intros s' [<-|[]] _. reflexivity. }
      exists gs. simpl. split; [exact H1|]. split; [exact H2|]. split; assumption.
    + (* within budget: extend the current chunk *)
      apply Z.ltb_ge in Hb.
      destruct (IH chunks ((x :: cur') ++ [s]) (cnt + Z.of_nat (count_words s)))
        as [gs [H1 [H2 [H3 H4]]]].
      { rewrite group_words_app. simpl. subst cnt. simpl. lia. }
      { right. unfold group_ok in *. destruct Hcur as [Hcur|[Hb1 Hb2]]; [discriminate|].
        assert (Hsmall : forall s', In s' (x :: cur') ->
                  Z.of_nat (count_words s') <= chunk_size).
        { intros s' Hin. destruct (Z.le_gt_cases (Z.of_nat (count_words s')) chunk_size)
            as [Hle|Hgt]; [exact Hle|].
          specialize (Hb2 s' Hin Hgt). rewrite Hb2 in Hcnt. simpl in Hcnt. lia. }
        split.
        - left. rewrite group_words_app. subst cnt.
          change (group_words [s]) with (Z.of_nat (count_words s) + 0). lia.
        - intros s' Hin Hgt. exfalso.
          apply in_app_or in Hin as [Hin|[<-|[]]].
          + specialize (Hsmall s' Hin). lia.
          + subst cnt. lia. }
      exists gs. split; [exact H1|]. split; [rewrite H2, <- app_assoc; reflexivity|].
      split; assumption.
Qed.
End Chunking.

Lemma chunk_text_groups (text : string) (chunk_size : Z) :
  exists groups,
    chunk_text text chunk_size = map join_space groups /\
    concat groups = split_sentences text /\
    Forall (fun g => g <> []) groups /\
    Forall (group_ok chunk_size) groups.
Proof.
  destruct (chunk_loop_groups chunk_size (split_sentences text) [] [] 0
              eq_refl (or_introl eq_refl)) as [gs [H1 [H2 H3]]].
  exists gs. split; [exact H1|]. split; [exact H2|exact H3].
Qed.

(* ===================================================================== *)
(** ** Claims: text chunking *)

(** Claim C4 (code bug): a chunk returned by [chunk_text] can be the
    empty string, against the claim's "no chunk is empty" and the code's
    own "Add the last chunk if it has content".  [re.split] yields an
    empty last sentence for a text that ends in whitespace after
    punctuation; after an oversized sentence it opens a chunk of its own
    that [if current_chunk:] lets through, and an empty text gives one
    empty chunk. *)
Lemma chunk_text_empty_chunk :
  chunk_text "a b c. " 1 = ["a b c."; ""]%string /\
  In ""%string (chunk_text "a b c. " 1) /\
  chunk_text "" 1 = [""%string].
Proof. split; [reflexivity|]. split; [simpl; right; left; reflexivity|reflexivity]. Qed.

(** For every text and every [chunk_size], the chunks
    of [chunk_text] are the single-space joins of an ordered list of
    sentence groups, each holding at least one sentence, whose
    concatenation is exactly the sentence sequence
    [re.split(r'(?<=[.!?])\s+', text)]: no sentence lost or repeated. *)
Theorem chunk_text_partition (text : string) (chunk_size : Z) :
  exists groups,
    chunk_text text chunk_size = map join_space groups /\
    concat groups = split_sentences text /\
    Forall (fun g => g <> []) groups.
Proof.
  destruct (chunk_text_groups text chunk_size) as [gs [H1 [H2 [H3 _]]]].
  exists gs. split; [exact H1|]. split; [exact H2|exact H3].
Qed.

(** Claim C5: for every text and [chunk_size], each chunk of [chunk_text]
    has at most [chunk_size] words unless it is one single sentence with
    more than [chunk_size] words; and every such oversized sentence is
    emitted alone as a chunk of its own (never dropped, never split). *)
Theorem chunk_text_word_budget (text : string) (chunk_size : Z) :
  exists groups,
    chunk_text text chunk_size = map join_space groups /\
    concat groups = split_sentences text /\
    Forall (fun g =>
      Z.of_nat (count_words (join_space g)) <= chunk_size \/
      exists s, g = [s] /\ chunk_size < Z.of_nat (count_words s)) groups /\
    (forall s, In s (split_sentences text) ->
       chunk_size < Z.of_nat (count_words s) ->
       In [s] groups /\ In s (chunk_text text chunk_size)).
Proof.
  destruct (chunk_text_groups text chunk_size) as [gs [H1 [H2 [_ H4]]]].
  exists gs. split; [exact H1|]. split; [exact H2|]. split.
  - eapply Forall_impl; [exact H4|]. intros g [Hg _].
    rewrite group_words_join. exact Hg.
  - intros s Hin Hgt. rewrite <- H2 in Hin.
    apply in_concat in Hin as [g [Hg Hsg]].
    rewrite List.Forall_forall in H4. destruct (H4 g Hg) as [_ Hone].
    rewrite (Hone s Hsg Hgt) in Hg. split; [exact Hg|].
    rewrite H1. change s with (join_space [s]). apply in_map. exact Hg.
Qed.

Lemma chunk_text_word_budget_witness :
  In "a b c."%string (chunk_text "a b c. d." 1).
Proof.
  destruct (chunk_text_word_budget "a b c. d." 1) as [gs [_ [_ [_ H]]]].
  refine (proj2 (H "a b c."%string _ _)).
  - simpl. left. reflexivity.
  - vm_compute. reflexivity.
Defined.

(* ===================================================================== *)
(** ** Proofs: extractive summarization *)

Lemma insert_desc_length {A} (key : A -> Q) (x : A) (l : list A) :
  length (insert_desc key x l) = S (length l).
Proof.
  induction l as [|y l IH]; simpl; [reflexivity|].
  destruct (negb (Qle_bool (key x) (key y))); simpl; [reflexivity|].
  rewrite IH. reflexivity.
Qed.

Lemma insert_desc_In {A} (key : A -> Q) (x y : A) (l : list A) :
  In y (insert_desc key x l) <-> x = y \/ In y l.
Proof.
  induction l as [|z l IH]; simpl; [tauto|].
  destruct (negb (Qle_bool (key x) (key z))); simpl; [tauto|].
  rewrite IH. tauto.
Qed.

Lemma sorted_desc_length_aux {A} (key : A -> Q) (l : list A) :
  forall acc, length (fold_left (fun acc x => insert_desc key x acc) l acc) =
              (length l + length acc)%nat.
Proof.
  induction l as [|x l IH]; intros acc; simpl; [reflexivity|].
  rewrite IH, insert_desc_length. lia.
Qed.

Lemma sorted_desc_length {A} (key : A -> Q) (l : list A) :
  length (sorted_desc key l) = length l.
Proof.
  unfold sorted_desc. rewrite sorted_desc_length_aux. simpl. lia.
Qed.

Lemma sorted_desc_In_aux {A} (key : A -> Q) (y : A) (l : list A) :
  forall acc, In y (fold_left (fun acc x => insert_desc key x acc) l acc) ->
              In y l \/ In y acc.
Proof.
  induction l as [|x l IH]; intros acc H; simpl in *; [tauto|].
  apply IH in H as [H|H]; [tauto|].
  apply insert_desc_In in H. tauto.
Qed.

Lemma sorted_desc_In {A} (key : A -> Q) (y : A) (l : list A) :
  In y (sorted_desc key l) -> In y l.
Proof.
  intros H. apply sorted_desc_In_aux in H as [H|[]]. exact H.
Qed.

Lemma firstn_In_incl {A} (n : nat) (x : A) (l : list A) :
  In x (firstn n l) -> In x l.
Proof.
  intros H. rewrite <- (firstn_skipn n l). apply in_or_app. left. exact H.
Qed.

Lemma target_sentences_ge (n : nat) : (3 <= target_sentences n)%nat.
Proof. unfold target_sentences. lia. Qed.

Lemma target_sentences_le (n : nat) : (3 <= n)%nat -> (target_sentences n <= n)%nat.
Proof.
  intros H. unfold target_sentences.
  pose proof (Nat.Div0.div_le_upper_bound n 3 n ltac:(lia)). lia.
Qed.

Lemma sentence_scores_length (STOP_WORDS : list string) (doc : doc_t) :
  (length (sentence_scores STOP_WORDS doc) <= length doc)%nat.
Proof.
  unfold sentence_scores. generalize (word_frequencies STOP_WORDS doc) as freqs.
  intros freqs. induction doc as [|sent doc IH]; simpl; [lia|].
  rewrite length_app.
  destruct (sentence_score freqs sent); simpl; lia.
Qed.

(* ===================================================================== *)
(** ** Claims: extractive summarization *)

(** Claim C6 (as stated, refuted): with three sentences in the transcript
    fewer than three are selected.  On the fallback path only sentences of
    more than five words are candidates; on the spaCy path only sentences
    that received a score are (here every word is a stop word). *)
Lemma extractive_selection_too_few :
  length (split_sentences "One two. Three four. Five six.") = 3%nat /\
  fallback_selected "One two. Three four. Five six." = [] /\
  let it := {| tok_text := "It"; tok_punct := false; tok_space := true |} in
  let is := {| tok_text := "is"; tok_punct := false; tok_space := false |} in
  let dot := {| tok_text := "."; tok_punct := true; tok_space := true |} in
  let doc := [[it; is; dot]; [it; is; dot]; [it; is; dot]] in
  length doc = 3%nat /\ spacy_selected ["it"; "is"]%string doc = [].
Proof. vm_compute. repeat split. Qed.

(** Claim C6 (amended): on the fallback path, with [M] the number of split
    sentences of more than five words, [min(max(3, M//3), M)] of them are
    selected, so at least 3 when [M >= 3] and all [M] when [M < 3], and
    only such sentences are selected; on the spaCy path, with [N] doc
    sentences of which [K <= N] received a score, [min(max(3, N//3), K)]
    sentences are selected: at least 3 when [K >= 3], all [K] scored
    sentences when [N < 3]. *)
Theorem extractive_selection_count (STOP_WORDS : list string)
    (transcription : string) (doc : doc_t) :
  let M := length (List.filter (fun s => Nat.ltb 5 (count_words s))
                          (split_sentences transcription)) in
  length (fallback_selected transcription) = Nat.min (target_sentences M) M /\
  ((3 <= M)%nat -> (3 <= length (fallback_selected transcription))%nat) /\
  ((M < 3)%nat -> length (fallback_selected transcription) = M) /\
  Forall (fun s => In s (split_sentences transcription) /\ (5 < count_words s)%nat)
    (fallback_selected transcription) /\
  let N := length doc in
  let K := length (sentence_scores STOP_WORDS doc) in
  (K <= N)%nat /\
  length (spacy_selected STOP_WORDS doc) = Nat.min (target_sentences N) K /\
  ((3 <= K)%nat -> (3 <= length (spacy_selected STOP_WORDS doc))%nat) /\
  ((N < 3)%nat -> length (spacy_selected STOP_WORDS doc) = K).
Proof.
  intros M.
  assert (HF : length (fallback_selected transcription) = Nat.min (target_sentences M) M).
  { unfold fallback_selected, scored_sentences.
    rewrite length_map, length_firstn, sorted_desc_length, length_map. reflexivity. }
  split; [exact HF|]. split; [|split; [|split]].
  - intros H3. rewrite HF. pose proof (target_sentences_ge M). lia.
  - intros H3. rewrite HF. pose proof (target_sentences_ge M). lia.
  - apply List.Forall_forall. intros s Hs.
    unfold fallback_selected, scored_sentences in Hs.
    apply in_map_iff in Hs as [[s' q] [<- Hin]].
    apply firstn_In_incl, sorted_desc_In in Hin.
    apply in_map_iff in Hin as [s'' [Heq Hin]]. injection Heq as <- _.
    apply filter_In in Hin as [Hin Hlong]. apply Nat.ltb_lt in Hlong. simpl.
    split; assumption.
  - intros N K.
    assert (HK : (K <= N)%nat) by apply sentence_scores_length.
    assert (HS : length (spacy_selected STOP_WORDS doc) = Nat.min (target_sentences N) K).
    { unfold spacy_selected.
      rewrite length_map, length_firstn, sorted_desc_length. reflexivity. }
    split; [exact HK|]. split; [exact HS|]. split.
    + intros H3. rewrite HS. pose proof (target_sentences_ge N). lia.
    + intros H3. rewrite HS. pose proof (target_sentences_ge N). lia.
Qed.

Lemma extractive_selection_count_witness :
  (3 <= length (fallback_selected
     "This is an important first sentence here. a b c d e f g. Second long sentence is about the main key point. tiny. Another long sentence with many words in it."))%nat.
Proof.
  destruct (extractive_selection_count [] 
     "This is an important first sentence here. a b c d e f g. Second long sentence is about the main key point. tiny. Another long sentence with many words in it."
     []) as [_ [H3 _]].
  apply H3. vm_compute. lia.
Defined.

(* ===================================================================== *)
(** ** Proofs: configuration *)

Lemma merge_fold_lookup (items : list (string * json)) :
  forall (cfg : gmap string json) (k : string),
    fold_left (fun cfg kv =>
                 match cfg !! kv.1 with
                 | None => <[kv.1 := kv.2]> cfg
                 | Some _ => cfg
                 end) items cfg !! k =
    match cfg !! k with
    | Some v => Some v
    | None => (list_to_map items : gmap string json) !! k
    end.
Proof.
  induction items as [|[k' v'] items IH]; intros cfg k; simpl.
  - destruct (cfg !! k); reflexivity.
  - rewrite IH. destruct (cfg !! k') as [w|] eqn:E1;
      destruct (decide (k = k')) as [->|Hne].
    + rewrite E1. reflexivity.
    + destruct (cfg !! k); [reflexivity|]. rewrite lookup_insert_ne by congruence.
      reflexivity.
    + rewrite lookup_insert_eq, E1, lookup_insert_eq. reflexivity.
    + rewrite !lookup_insert_ne by congruence. reflexivity.
Qed.

Lemma load_config_object (cfg : gmap string json) (k : string) :
  load_config (FileObject cfg) !! k =
  match cfg !! k with Some v => Some v | None => default_config !! k end.
Proof. apply merge_fold_lookup. Qed.

Lemma save_link_to_history_history (f : config_file) (e : json) (old : list json) :
  loaded_history f = Some old ->
  exists f', save_link_to_history f e = Ok f' /\
             loaded_history f' = Some (firstn 50 (e :: old)).
Proof.
  unfold loaded_history, save_link_to_history. intros H.
  destruct (load_config f !! "link_history"%string) as [[]|] eqn:E; try discriminate.
  injection H as ->. rewrite E.
  eexists. split; [reflexivity|].
  unfold save_config. rewrite load_config_object, lookup_insert_eq. reflexivity.
Qed.

Lemma firstn_app_firstn {A} (n : nat) (a b : list A) :
  firstn n (a ++ firstn n b) = firstn n (a ++ b).
Proof.
  rewrite !firstn_app, firstn_firstn. f_equal. f_equal. lia.
Qed.

Lemma save_links_history (entries : list json) :
  forall f old, loaded_history f = Some old ->
  exists f', save_links f entries = Ok f' /\
             loaded_history f' =
               Some (match entries with
                     | [] => old
                     | _ => firstn 50 (rev entries ++ old)
                     end).
Proof.
  induction entries as [|e es IH]; intros f old H.
  - exists f. split; [reflexivity|exact H].
  - destruct (save_link_to_history_history f e old H) as [f1 [H1 H1h]].
    destruct (IH f1 _ H1h) as [f' [H2 H2h]].
    exists f'. simpl. rewrite H1. simpl. split; [exact H2|].
    rewrite H2h. destruct es as [|e' es].
    + reflexivity.
    + f_equal. change (rev (e :: e' :: es)) with (rev (e' :: es) ++ [e]).
      rewrite <- app_assoc. rewrite firstn_app_firstn. reflexivity.
Qed.

(* ===================================================================== *)
(** ** Claims: configuration *)

(** Claim C7: starting from any configuration file whose [link_history]
    is a list (or absent), after any non-empty sequence of
    [save_link_to_history] calls the stored history is the appended
    entries newest first followed by the previous history, cut to its
    first 50 entries: it has at most 50 entries, each new entry sits at
    position 0, and once 50 or more entries have been appended exactly
    the 50 most recent remain (the oldest are evicted first). *)
Theorem link_history_bounded (f : config_file) (old entries : list json) :
  loaded_history f = Some old -> entries <> [] ->
  exists f',
    save_links f entries = Ok f' /\
    loaded_history f' = Some (firstn 50 (rev entries ++ old)) /\
    (length (firstn 50 (rev entries ++ old)) <= 50)%nat /\
    ((50 <= length entries)%nat ->
     firstn 50 (rev entries ++ old) = firstn 50 (rev entries)).
Proof.
  intros H Hne.
  destruct (save_links_history entries f old H) as [f' [H1 H2]].
  exists f'. split; [exact H1|]. split.
  - rewrite H2. destruct entries; [contradiction|reflexivity].
  - split.
    + rewrite length_firstn. lia.
    + intros H50. rewrite firstn_app, length_rev.
      replace (50 - length entries)%nat with 0%nat by lia.
      simpl. rewrite app_nil_r. reflexivity.
Qed.

Lemma link_history_bounded_witness :
  exists f',
    save_links FileMissing [JInt 1; JInt 2] = Ok f' /\
    loaded_history f' = Some (firstn 50 (rev [JInt 1; JInt 2] ++ [])) /\
    (length (firstn 50 (rev [JInt 1; JInt 2] ++ [])) <= 50)%nat /\
    ((50 <= length [JInt 1; JInt 2])%nat ->
     firstn 50 (rev [JInt 1; JInt 2] ++ []) = firstn 50 (rev [JInt 1; JInt 2])).
Proof.
  apply link_history_bounded; [reflexivity|discriminate].
Defined.

(** Claim C10: when [save_link_to_history] succeeds, the file it writes
    holds, for every key other than [link_history], exactly the value
    (or absence) of that key in the configuration loaded at the start of
    the call. *)
Theorem save_link_frame (f f' : config_file) (e : json) :
  save_link_to_history f e = Ok f' ->
  exists config',
    f' = FileObject config' /\
    forall k, k <> "link_history"%string -> config' !! k = load_config f !! k.
Proof.
  unfold save_link_to_history. intros H. cbv zeta in H.
  destruct (load_config f !! "link_history"%string) as [v|] eqn:E;
    cbv beta iota in H.
  - rewrite E in H. destruct v; try discriminate. injection H as <-.
    eexists. split; [reflexivity|]. intros k Hk.
    rewrite lookup_insert_ne by congruence. reflexivity.
  - rewrite lookup_insert_eq in H. injection H as <-.
    eexists. split; [reflexivity|]. intros k Hk.
    rewrite !lookup_insert_ne by congruence. reflexivity.
Qed.

Lemma save_link_frame_witness :
  save_link_to_history FileMissing
    (history_entry "1" "https://youtu.be/x" "t" "2024-01-01") =
    Ok (FileObject (<["link_history"%string :=
          JList [history_entry "1" "https://youtu.be/x" "t" "2024-01-01"]]> default_config)) /\
  exists config',
    FileObject (<["link_history"%string :=
          JList [history_entry "1" "https://youtu.be/x" "t" "2024-01-01"]]> default_config)
      = FileObject config' /\
    forall k, k <> "link_history"%string -> config' !! k = load_config FileMissing !! k.
Proof.
  assert (H : save_link_to_history FileMissing
    (history_entry "1" "https://youtu.be/x" "t" "2024-01-01") =
    Ok (FileObject (<["link_history"%string :=
          JList [history_entry "1" "https://youtu.be/x" "t" "2024-01-01"]]> default_config)))
    by reflexivity.
  split; [exact H|]. exact (save_link_frame _ _ _ H).
Defined.

(** Claim C8 (as stated, refuted): [llm_model] and [llm_prompt] are
    recognized configuration keys but have no default: saving an empty
    mapping and loading it back leaves both absent. *)
Lemma config_roundtrip_no_llm_defaults :
  load_config (save_config empty) !! "llm_model"%string = None /\
  load_config (save_config empty) !! "llm_prompt"%string = None.
Proof. split; reflexivity. Qed.

(** Claim C8 (amended): for every configuration mapping, loading it back
    after [save_config] gives every key of the mapping its saved value
    (explicit and unknown keys alike), gives every other key of
    [load_config]'s default table its default value, and adds no other
    key; the default table has exactly the eight keys [deepseek_api_key],
    [ollama_model], [ollama_formatting_model], [use_ollama_formatting],
    [chunk_duration], [overlap_duration], [summary_chunk_size] and
    [link_history]. *)
Theorem config_roundtrip (config : gmap string json) :
  (forall k v, config !! k = Some v -> load_config (save_config config) !! k = Some v) /\
  (forall k, config !! k = None ->
     load_config (save_config config) !! k = default_config !! k) /\
  map_to_list default_config ≡ₚ default_config_items.
Proof.
  split; [|split].
  - intros k v H. unfold save_config. rewrite load_config_object, H. reflexivity.
  - intros k H. unfold save_config. rewrite load_config_object, H. reflexivity.
  - unfold default_config. apply map_to_list_to_map.
    apply (bool_decide_unpack _). vm_compute. exact I.
Qed.

Lemma config_roundtrip_witness :
  load_config (save_config {["llm_model"%string := JStr "deepseek-chat"]})
    !! "llm_model"%string = Some (JStr "deepseek-chat") /\
  load_config (save_config {["llm_model"%string := JStr "deepseek-chat"]})
    !! "chunk_duration"%string = default_config !! "chunk_duration"%string.
Proof.
  destruct (config_roundtrip {["llm_model"%string := JStr "deepseek-chat"]})
    as [H1 [H2 _]].
  split.
  - apply H1. reflexivity.
  - apply H2. reflexivity.
Defined.

(* ===================================================================== *)
(** ** Claims: optional formatting pass *)

(** Claim C9: for every summary text, when the formatting pass fails
    (the request, [raise_for_status], [response.json()] or a [.get]
    raises) or yields an empty (falsy) content, the value handed back by
    [apply_ollama_formatting_if_enabled] is the unformatted summary and no
    exception propagates; a [RequestException] is already absorbed by
    [apply_ollama_formatting] itself, and the wrapper never raises. *)
Theorem formatting_fallback (summary_text : string) :
  (forall out e,
     ollama_format_request summary_text out = Raise e ->
     apply_ollama_formatting_if_enabled summary_text true out = Ok (JStr summary_text) /\
     (is_request_exception e = true ->
      apply_ollama_formatting summary_text out = Ok (JStr summary_text))) /\
  (forall status result message formatted_summary,
     ~ (400 <= status < 600) ->
     py_get result "message" (JObject []) = Ok message ->
     py_get message "content" (JStr "") = Ok formatted_summary ->
     truthy formatted_summary = false ->
     apply_ollama_formatting summary_text (PostResponse status (Some result))
       = Ok (JStr summary_text) /\
     apply_ollama_formatting_if_enabled summary_text true
       (PostResponse status (Some result)) = Ok (JStr summary_text)) /\
  (forall use out, exists v,
     apply_ollama_formatting_if_enabled summary_text use out = Ok v).
Proof.
  split; [|split].
  - intros out e H. unfold apply_ollama_formatting_if_enabled, apply_ollama_formatting.
    rewrite H. split.
    + destruct (is_request_exception e); reflexivity.
    + intros He. rewrite He. reflexivity.
  - intros status result message fs Hs Hm Hc Ht.
    assert (Hf : apply_ollama_formatting summary_text (PostResponse status (Some result))
                 = Ok (JStr summary_text)).
    { unfold apply_ollama_formatting, ollama_format_request.
      destruct ((400 <=? status) && (status <? 600)) eqn:Hb.
      - apply andb_prop in Hb as [H1 H2].
        apply Z.leb_le in H1. apply Z.ltb_lt in H2. exfalso. lia.
      - simpl. rewrite Hm. simpl. rewrite Hc. simpl. rewrite Ht. reflexivity. }
    split; [exact Hf|].
    unfold apply_ollama_formatting_if_enabled. rewrite Hf. reflexivity.
  - intros use out. unfold apply_ollama_formatting_if_enabled, try_except.
    destruct use; [|eexists; reflexivity].
    destruct (apply_ollama_formatting summary_text out); eexists; reflexivity.
Qed.

Lemma formatting_fallback_witness :
  apply_ollama_formatting_if_enabled "# Detailed Summary" true
    (PostRaises RequestException) = Ok (JStr "# Detailed Summary") /\
  apply_ollama_formatting_if_enabled "# Detailed Summary" true
    (PostResponse 200 (Some (JObject [("message", JObject [("content", JStr "")])])))
    = Ok (JStr "# Detailed Summary").
Proof.
  destruct (formatting_fallback "# Detailed Summary") as [H1 [H2 _]].
  split.
  - exact (proj1 (H1 (PostRaises RequestException) RequestException eq_refl)).
  - refine (proj2 (H2 200 (JObject [("message", JObject [("content", JStr "")])])
              (JObject [("content", JStr "")]) (JStr "") _ eq_refl eq_refl eq_refl)).
    lia.
Defined.

(* ===================================================================== *)
(** ** Proofs: string helpers *)

Lemma rstrip_cons_nonspace (c : ascii) (s : string) :
  is_space c = false -> rstrip (String c s) = String c (rstrip s).
Proof.
  intros Hc. simpl. destruct (rstrip s); [rewrite Hc|]; reflexivity.
Qed.

Lemma rstrip_idem (s : string) : rstrip (rstrip s) = rstrip s.
Proof.
  induction s as [|c s IH]; [reflexivity|].
  simpl. destruct (rstrip s) as [|d r] eqn:E.
  - destruct (is_space c) eqn:Hc; [reflexivity|].
    simpl. rewrite Hc. reflexivity.
  - change (rstrip (String c (String d r)) = String c (String d r)).
    simpl. simpl in IH. rewrite IH. reflexivity.
Qed.

Lemma lstrip_head (s : string) :
  lstrip s = EmptyString \/
  exists c t, lstrip s = String c t /\ is_space c = false.
Proof.
  induction s as [|c s IH]; [left; reflexivity|].
  simpl. destruct (is_space c) eqn:Hc; [exact IH|].
  right. exists c, s. split; [reflexivity|exact Hc].
Qed.

Lemma strip_idem (s : string) : strip (strip s) = strip s.
Proof.
  unfold strip. destruct (lstrip_head s) as [E|[c [t [E Hc]]]]; rewrite E.
  - reflexivity.
  - rewrite !rstrip_cons_nonspace by exact Hc. simpl. rewrite Hc.
    rewrite rstrip_cons_nonspace by exact Hc. rewrite rstrip_idem. reflexivity.
Qed.

(** Characters of [lstrip s] and [rstrip s] are characters of [s]. *)
Lemma lstrip_chars (s : string) (c : ascii) :
  In c (list_ascii_of_string (lstrip s)) -> In c (list_ascii_of_string s).
Proof.
  induction s as [|d s IH]; simpl; [tauto|].
  destruct (is_space d); simpl; [intros H; right; exact (IH H)|tauto].
Qed.

Lemma rstrip_chars (s : string) (c : ascii) :
  In c (list_ascii_of_string (rstrip s)) -> In c (list_ascii_of_string s).
Proof.
  induction s as [|d s IH]; simpl; [tauto|].
  destruct (rstrip s) as [|e r] eqn:E.
  - destruct (is_space d); simpl; tauto.
  - simpl. intros [H|H]; [left; exact H|]. right. apply IH. exact H.
Qed.

Lemma strip_chars (s : string) (c : ascii) :
  In c (list_ascii_of_string (strip s)) -> In c (list_ascii_of_string s).
Proof. intros H. apply lstrip_chars, rstrip_chars, H. Qed.



(* ===================================================================== *)
(** ** Proofs: subtitles to text *)

Lemma split_newline_nonempty (s : string) : split_newline s <> [].
Proof.
  induction s as [|c s IH]; simpl; [discriminate|].
  destruct (Ascii.eqb c (ascii_of_nat 10)); [discriminate|].
  destruct (split_newline s); discriminate.
Qed.

Lemma split_newline_app (a b : string) :
  split_newline (a ++ String nl b) = split_newline a ++ split_newline b.
Proof.
  induction a as [|c a IH]; [reflexivity|].
  simpl. rewrite IH. destruct (Ascii.eqb c (ascii_of_nat 10)); [reflexivity|].
  destruct (split_newline a) eqn:E; [exfalso; exact (split_newline_nonempty a E)|].
  reflexivity.
Qed.

Lemma split_newline_no_newline (s : string) :
  Forall (fun p => no_newline p = true) (split_newline s).
Proof.
  induction s as [|c s IH]; simpl; [repeat constructor|].
  destruct (Ascii.eqb c (ascii_of_nat 10)) eqn:Hc; [constructor; [reflexivity|exact IH]|].
  destruct (split_newline s) as [|p rest]; [constructor; [|constructor]|].
  - unfold no_newline. simpl. rewrite Hc. reflexivity.
  - inversion IH as [|? ? Hp Hrest]; subst. constructor; [|exact Hrest].
    unfold no_newline in *. simpl. rewrite Hc, Hp. reflexivity.
Qed.



Lemma srt_loop_acc (lines acc : list string) :
  srt_loop lines acc = acc ++ srt_loop lines [].
Proof.
  revert acc. induction lines as [|l lines IH]; intros acc; simpl.
  - rewrite app_nil_r. reflexivity.
  - destruct (skip_line (strip l)); [apply IH|].
    rewrite IH, (IH [strip l]), app_assoc. reflexivity.
Qed.

Lemma srt_loop_filter (lines : list string) :
  srt_loop lines [] = List.filter (fun line => negb (skip_line line)) (map strip lines).
Proof.
  induction lines as [|l lines IH]; [reflexivity|]. simpl.
  destruct (skip_line (strip l)); simpl; [exact IH|].
  rewrite srt_loop_acc, IH. reflexivity.
Qed.

Lemma no_newline_app (a b : string) :
  no_newline (a ++ b) = no_newline a && no_newline b.
Proof.
  unfold no_newline. induction a as [|c a IH]; [reflexivity|].
  simpl. rewrite IH, andb_assoc. reflexivity.
Qed.

Lemma no_newline_join (l : list string) :
  Forall (fun p => no_newline p = true) l -> no_newline (join_space l) = true.
Proof.
  unfold join_space. induction l as [|x l IH]; intros Hl; [reflexivity|].
  inversion Hl as [|? ? Hx Hrest]; subst.
  destruct l as [|y l]; [exact Hx|].
  change (String.concat " " (x :: y :: l)) with (x ++ " " ++ String.concat " " (y :: l))%string.
  rewrite !no_newline_app, Hx, IH by exact Hrest. reflexivity.
Qed.

Lemma no_newline_strip (s : string) :
  no_newline s = true -> no_newline (strip s) = true.
Proof.
  unfold no_newline. rewrite !forallb_forall. intros H c Hc.
  apply H, strip_chars, Hc.
Qed.

Lemma srt_text_lines_filter (s : string) :
  srt_text_lines s =
  List.filter (fun line => negb (skip_line line)) (map strip (split_newline s)).
Proof. apply srt_loop_filter. Qed.










(* ===================================================================== *)
(** ** Extra properties: titles and subtitles *)

(** [get_video_title] never returns an empty title nor one with leading
    or trailing whitespace. *)
Theorem get_video_title_clean (result : proc_outcome) (title : string) :
  get_video_title result = Ok title -> title <> ""%string /\ strip title = title.
Proof.
  destruct result as [e|rc out]; simpl.
  - destruct e; intros H; try discriminate; injection H as <-;
      (split; [discriminate|reflexivity]).
  - destruct ((rc =? 0) && negb (strip out =? "")%string) eqn:E; intros H;
      injection H as <-.
    + apply andb_true_iff in E as [_ E]. apply negb_true_iff, String.eqb_neq in E.
      split; [exact E|apply strip_idem].
    + split; [discriminate|reflexivity].
Qed.

Lemma get_video_title_clean_witness :
  get_video_title (RunDone 0 "  Intro to Rocq  ") = Ok "Intro to Rocq"%string /\
  ("Intro to Rocq"%string <> ""%string /\ strip "Intro to Rocq" = "Intro to Rocq"%string).
Proof.
  split; [reflexivity|].
  apply (get_video_title_clean (RunDone 0 "  Intro to Rocq  ")). reflexivity.
Defined.

(** The text produced by [convert_srt_to_text] never contains a newline. *)
Theorem convert_srt_to_text_one_line (srt_content : string) :
  no_newline (convert_srt_to_text srt_content) = true.
Proof.
  unfold convert_srt_to_text. apply no_newline_join.
  rewrite srt_text_lines_filter. apply List.Forall_forall. intros line Hl.
  apply filter_In in Hl as [Hl _]. apply in_map_iff in Hl as [p [<- Hp]].
  apply no_newline_strip.
  exact (proj1 (List.Forall_forall _ _) (split_newline_no_newline (read_text srt_content)) p Hp).
Qed.

(** Converting two subtitle texts joined by a newline keeps the text
    lines of the first followed by those of the second. *)
Theorem srt_text_lines_append (a b : string) :
  srt_text_lines (a ++ newline ++ b) = srt_text_lines a ++ srt_text_lines b.
Proof.
  rewrite !srt_text_lines_filter.
  change (a ++ newline ++ b)%string with (a ++ String nl b)%string.
  rewrite split_newline_app, map_app, List.filter_app. reflexivity.
Qed.



(* ===================================================================== *)
(** ** Proofs: configuration reloads and link removal *)

Lemma load_config_has_defaults (f : config_file) (k : string) (v : json) :
  default_config !! k = Some v -> is_Some (load_config f !! k).
Proof.
  intros D. destruct f as [| |cfg]; simpl; try (rewrite D; eauto).
  change (is_Some (load_config (FileObject cfg) !! k)).
  rewrite load_config_object. destruct (cfg !! k); [eauto|]. rewrite D. eauto.
Qed.

(** A mapping that has every default key loads back as itself. *)
Lemma load_config_full (cfg : gmap string json) :
  (forall k v, default_config !! k = Some v -> is_Some (cfg !! k)) ->
  load_config (FileObject cfg) = cfg.
Proof.
  intros H. apply map_eq. intros k. rewrite load_config_object.
  destruct (cfg !! k) as [w|] eqn:E; [reflexivity|].
  destruct (default_config !! k) as [v|] eqn:D; [|reflexivity].
  destruct (H k v D) as [w Hw]. congruence.
Qed.

Lemma load_config_insert (f : config_file) (k : string) (v : json) :
  load_config (save_config (<[k := v]> (load_config f))) = <[k := v]> (load_config f).
Proof.
  apply load_config_full. intros k' v' D.
  destruct (decide (k = k')) as [->|Hne].
  - rewrite lookup_insert_eq. eauto.
  - rewrite lookup_insert_ne by exact Hne. exact (load_config_has_defaults f k' v' D).
Qed.

Lemma keep_entry_dict (link_id : string) (e : json) :
  is_dict e = true -> keep_entry link_id e = Ok (negb (has_id link_id e)).
Proof.
  destruct e as [| | | | |kvs]; try discriminate. intros _.
  unfold keep_entry, has_id, py_get.
  destruct (find _ (rev kvs)) as [[k v]|]; simpl; [|reflexivity].
  destruct v; reflexivity.
Qed.

Lemma filter_entries_dicts (link_id : string) (l : list json) :
  Forall (fun e => is_dict e = true) l ->
  filter_entries link_id l = Ok (List.filter (fun e => negb (has_id link_id e)) l).
Proof.
  induction l as [|e l IH]; intros H; [reflexivity|].
  inversion H as [|? ? He Hl]; subst. simpl.
  rewrite keep_entry_dict by exact He. simpl. rewrite IH by exact Hl. simpl.
  destruct (has_id link_id e); reflexivity.
Qed.

Lemma filter_entries_kept (link_id : string) (l kept : list json) :
  filter_entries link_id l = Ok kept ->
  Forall (fun e => keep_entry link_id e = Ok true) kept.
Proof.
  revert kept. induction l as [|e l IH]; intros kept H; simpl in H.
  - injection H as <-. constructor.
  - destruct (keep_entry link_id e) as [b|] eqn:Ek; [|discriminate]. simpl in H.
    destruct (filter_entries link_id l) as [k'|] eqn:El; [|discriminate]. simpl in H.
    injection H as <-. specialize (IH k' eq_refl).
    destruct b; [constructor; [exact Ek|exact IH]|exact IH].
Qed.

Lemma filter_entries_all_kept (link_id : string) (l : list json) :
  Forall (fun e => keep_entry link_id e = Ok true) l -> filter_entries link_id l = Ok l.
Proof.
  induction l as [|e l IH]; intros H; [reflexivity|].
  inversion H as [|? ? He Hl]; subst. simpl. rewrite He. simpl.
  rewrite IH by exact Hl. reflexivity.
Qed.

Lemma history_comprehension_kept (link_id : string) (v : json) (kept : list json) :
  history_comprehension link_id v = Ok kept ->
  filter_entries link_id kept = Ok kept.
Proof.
  intros H. apply filter_entries_all_kept.
  destruct v as [| | |s|l|kvs]; simpl in H; try discriminate.
  - destruct (String.eqb s ""); [injection H as <-; constructor|discriminate].
  - exact (filter_entries_kept _ _ _ H).
  - destruct kvs; [injection H as <-; constructor|discriminate].
Qed.

Lemma filter_entries_non_dict (link_id : string) (l : list json) :
  Exists (fun e => is_dict e = false) l ->
  filter_entries link_id l = Raise AttributeError.
Proof.
  induction l as [|e l IH]; intros H; [inversion H|].
  simpl. destruct (is_dict e) eqn:He.
  - rewrite keep_entry_dict by exact He. simpl.
    inversion H as [? ? H1|? ? H1]; subst; [congruence|]. rewrite (IH H1). reflexivity.
  - destruct e; try discriminate; reflexivity.
Qed.

(* ===================================================================== *)
(** ** Extra properties: link history removal *)

(** When the stored history is a list of dicts, [remove_link_from_history]
    succeeds, keeps exactly the entries whose ["id"] is not [link_id], in
    their order, and leaves every other key of the loaded configuration
    as it was. *)
Theorem remove_link_from_history_spec (f : config_file) (link_id : string)
    (history : list json) :
  loaded_history f = Some history ->
  Forall (fun e => is_dict e = true) history ->
  exists f', remove_link_from_history f link_id = Ok f' /\
    load_link_history f' =
      JList (List.filter (fun e => negb (has_id link_id e)) history) /\
    forall k, k <> "link_history"%string -> load_config f' !! k = load_config f !! k.
Proof.
  unfold loaded_history, remove_link_from_history. intros H Hd.
  destruct (load_config f !! "link_history"%string) as [[]|] eqn:E; try discriminate.
  injection H as ->. simpl. rewrite filter_entries_dicts by exact Hd. simpl.
  eexists. split; [reflexivity|]. split.
  - unfold load_link_history. rewrite load_config_insert, lookup_insert_eq. reflexivity.
  - intros k Hk. rewrite load_config_insert, lookup_insert_ne by congruence. reflexivity.
Qed.

Lemma remove_link_from_history_spec_witness :
  loaded_history (save_config (<["link_history"%string :=
     JList [history_entry "a" "u1" "t1" "d1"; history_entry "b" "u2" "t2" "d2"]]> default_config))
   = Some [history_entry "a" "u1" "t1" "d1"; history_entry "b" "u2" "t2" "d2"] /\
  exists f', remove_link_from_history (save_config (<["link_history"%string :=
     JList [history_entry "a" "u1" "t1" "d1"; history_entry "b" "u2" "t2" "d2"]]> default_config))
       "a" = Ok f' /\
    load_link_history f' =
      JList (List.filter (fun e => negb (has_id "a" e))
               [history_entry "a" "u1" "t1" "d1"; history_entry "b" "u2" "t2" "d2"]) /\
    forall k, k <> "link_history"%string ->
      load_config f' !! k =
      load_config (save_config (<["link_history"%string :=
         JList [history_entry "a" "u1" "t1" "d1"; history_entry "b" "u2" "t2" "d2"]]>
           default_config)) !! k.
Proof.
  split; [vm_compute; reflexivity|].
  apply remove_link_from_history_spec; [vm_compute; reflexivity|].
  repeat constructor.
Defined.

(** Removing the same id a second time changes nothing. *)
Theorem remove_link_from_history_idem (f f' : config_file) (link_id : string) :
  remove_link_from_history f link_id = Ok f' ->
  remove_link_from_history f' link_id = Ok f'.
Proof.
  unfold remove_link_from_history at 1.
  destruct (load_config f !! "link_history"%string) as [v|] eqn:E.
  - simpl. destruct (history_comprehension link_id v) as [kept|] eqn:Hc; [|discriminate].
    simpl. intros H. injection H as <-.
    unfold remove_link_from_history. rewrite load_config_insert, lookup_insert_eq.
    simpl. rewrite (history_comprehension_kept _ _ _ Hc). simpl.
    rewrite insert_insert_eq. reflexivity.
  - intros H. injection H as <-. unfold remove_link_from_history. rewrite E. reflexivity.
Qed.

Lemma remove_link_from_history_idem_witness :
  remove_link_from_history (save_config (<["link_history"%string :=
     JList [history_entry "a" "u1" "t1" "d1"]]> default_config)) "a" =
    Ok (save_config (<["link_history"%string := JList []]> default_config)) /\
  remove_link_from_history (save_config (<["link_history"%string := JList []]> default_config))
    "a" = Ok (save_config (<["link_history"%string := JList []]> default_config)).
Proof.
  assert (H : remove_link_from_history (save_config (<["link_history"%string :=
     JList [history_entry "a" "u1" "t1" "d1"]]> default_config)) "a" =
    Ok (save_config (<["link_history"%string := JList []]> default_config))).
  { unfold remove_link_from_history, save_config.
    rewrite (load_config_full (<["link_history"%string :=
       JList [history_entry "a" "u1" "t1" "d1"]]> default_config)).
    - rewrite lookup_insert_eq. vm_compute. reflexivity.
    - intros k v D. destruct (decide ("link_history"%string = k)) as [<-|Hne].
      + rewrite lookup_insert_eq. eauto.
      + rewrite lookup_insert_ne by exact Hne. rewrite D. eauto. }
  split; [exact H|]. exact (remove_link_from_history_idem _ _ _ H).
Defined.

(** A history entry that is not a dict makes removal raise
    [AttributeError], so nothing is written. *)
Theorem remove_link_from_history_non_dict (f : config_file) (link_id : string)
    (history : list json) :
  loaded_history f = Some history ->
  Exists (fun e => is_dict e = false) history ->
  remove_link_from_history f link_id = Raise AttributeError.
Proof.
  unfold loaded_history, remove_link_from_history. intros H Hx.
  destruct (load_config f !! "link_history"%string) as [[]|] eqn:E; try discriminate.
  injection H as ->. simpl. rewrite filter_entries_non_dict by exact Hx. reflexivity.
Qed.

Lemma remove_link_from_history_non_dict_witness :
  loaded_history (save_config (<["link_history"%string :=
     JList [history_entry "a" "u1" "t1" "d1"; JStr "b"]]> default_config))
   = Some [history_entry "a" "u1" "t1" "d1"; JStr "b"] /\
  Exists (fun e => is_dict e = false) [history_entry "a" "u1" "t1" "d1"; JStr "b"] /\
  remove_link_from_history (save_config (<["link_history"%string :=
     JList [history_entry "a" "u1" "t1" "d1"; JStr "b"]]> default_config)) "z"
   = Raise AttributeError.
Proof.
  assert (H1 : loaded_history (save_config (<["link_history"%string :=
     JList [history_entry "a" "u1" "t1" "d1"; JStr "b"]]> default_config))
   = Some [history_entry "a" "u1" "t1" "d1"; JStr "b"]) by (vm_compute; reflexivity).
  assert (H2 : Exists (fun e => is_dict e = false) [history_entry "a" "u1" "t1" "d1"; JStr "b"])
    by (right; left; reflexivity).
  split; [exact H1|]. split; [exact H2|].
  exact (remove_link_from_history_non_dict _ "z" _ H1 H2).
Defined.

(** Saving a link under a fresh id and then removing that id gives back
    the configuration loaded before, as long as the history held fewer
    than 50 entries. *)
Theorem save_then_remove_link (f : config_file) (history : list json)
    (link_id url title timestamp : string) :
  loaded_history f = Some history ->
  (length history < 50)%nat ->
  Forall (fun e => is_dict e = true /\ has_id link_id e = false) history ->
  exists f1 f2,
    save_link_to_history f (history_entry link_id url title timestamp) = Ok f1 /\
    remove_link_from_history f1 link_id = Ok f2 /\
    load_config f2 = load_config f.
Proof.
  unfold loaded_history. intros H Hlen Hh.
  destruct (load_config f !! "link_history"%string) as [[]|] eqn:E; try discriminate.
  injection H as ->.
  assert (Hs : save_link_to_history f (history_entry link_id url title timestamp) =
    Ok (save_config (<["link_history"%string :=
          JList (history_entry link_id url title timestamp :: history)]> (load_config f)))).
  { unfold save_link_to_history. rewrite E. simpl. rewrite E.
    rewrite firstn_all2 by (simpl; lia). reflexivity. }
  eexists _, _. split; [exact Hs|]. split.
  - unfold remove_link_from_history. rewrite load_config_insert, lookup_insert_eq.
    cbn [history_comprehension]. rewrite filter_entries_dicts.
    + reflexivity.
    + constructor; [reflexivity|]. eapply Forall_impl; [exact Hh|]. simpl. tauto.
  - rewrite insert_insert_eq, load_config_insert.
    assert (Hid : has_id link_id (history_entry link_id url title timestamp) = true).
    { unfold has_id, py_get, history_entry. simpl. apply String.eqb_refl. }
    simpl. rewrite Hid. simpl.
    rewrite (List.filter_ext_in _ (fun _ => true)).
    + rewrite List.filter_true. apply insert_id. exact E.
    + intros e He. apply (proj1 (List.Forall_forall _ _) Hh) in He as [_ He].
      rewrite He. reflexivity.
Qed.

Lemma save_then_remove_link_witness :
  exists f1 f2,
    save_link_to_history FileMissing (history_entry "1" "https://youtu.be/x" "t" "d") = Ok f1 /\
    remove_link_from_history f1 "1" = Ok f2 /\
    load_config f2 = load_config FileMissing.
Proof.
  apply (save_then_remove_link FileMissing []); [reflexivity|simpl; lia|constructor].
Defined.

(* ===================================================================== *)
(** ** Proofs: command line *)

Lemma string_length_append (a b : string) :
  String.length (a ++ b) = (String.length a + String.length b)%nat.
Proof. induction a as [|c a IH]; simpl; [reflexivity|]. rewrite IH. reflexivity. Qed.

Lemma string_get_append (i : nat) (a b : string) :
  String.get i (a ++ b) =
  if Nat.ltb i (String.length a) then String.get i a else String.get (i - String.length a) b.
Proof.
  revert i. induction a as [|c a IH]; intros i; simpl.
  - rewrite Nat.sub_0_r. reflexivity.
  - destruct i as [|i]; simpl; [reflexivity|]. rewrite IH. reflexivity.
Qed.

Lemma stars_length (n : nat) : String.length (stars n) = n.
Proof. unfold stars. induction n as [|n IH]; simpl; [reflexivity|]. rewrite IH. reflexivity. Qed.

Lemma stars_get (n i : nat) (c : ascii) : String.get i (stars n) = Some c -> c = "*"%char.
Proof.
  unfold stars. revert i. induction n as [|n IH]; intros i; simpl; [discriminate|].
  destruct i as [|i]; simpl; [congruence|]. apply IH.
Qed.

Lemma substring_0_length (m : nat) (s : string) :
  String.length (substring 0 m s) = Nat.min m (String.length s).
Proof.
  revert s. induction m as [|m IH]; intros s; [destruct s; reflexivity|].
  destruct s as [|c s]; simpl; [reflexivity|]. rewrite IH. reflexivity.
Qed.

Lemma substring_0_get (m i : nat) (s : string) (c : ascii) :
  String.get i (substring 0 m s) = Some c -> (i < m)%nat /\ String.get i s = Some c.
Proof.
  revert i s. induction m as [|m IH]; intros i s; [destruct s, i; discriminate|].
  destruct s as [|d s]; simpl; [discriminate|].
  destruct i as [|i]; simpl; [intros H; split; [lia|exact H]|].
  intros H. destruct (IH i s H). split; [lia|assumption].
Qed.

(* ===================================================================== *)
(** ** Extra properties: command line *)

(** A [--set-...] command with a truthy value followed by [load_config]
    gives the new value under its key and the previously loaded value
    under every other key; with a value that is not truthy nothing is
    saved and [load_config] gives what it gave before. *)
Theorem set_config_value_load (f : config_file) (key : string) (value : json) :
  load_config (set_config_value f key value) =
  if truthy value then <[key := value]> (load_config f) else load_config f.
Proof.
  unfold set_config_value. destruct (truthy value); [apply load_config_insert|reflexivity].
Qed.

(** [--show-config] masks a DeepSeek key of the same length: every shown
    character is a star, except the first eight of a key longer than
    eight characters, which are the key's own. *)
Theorem mask_api_key_hides (value : string) :
  String.length (mask_api_key value) = String.length value /\
  forall i c, String.get i (mask_api_key value) = Some c ->
    c = "*"%char \/
    ((8 < String.length value)%nat /\ (i < 8)%nat /\ String.get i value = Some c).
Proof.
  unfold mask_api_key. destruct (Nat.ltb_spec 8 (String.length value)) as [Hl|Hl].
  - split.
    + rewrite string_length_append, substring_0_length, stars_length. lia.
    + intros i c H. rewrite string_get_append, substring_0_length in H.
      destruct (Nat.ltb_spec i (Nat.min 8 (String.length value))) as [Hi|Hi].
      * right. destruct (substring_0_get 8 i value c H). auto.
      * left. exact (stars_get _ _ _ H).
  - split; [apply stars_length|]. intros i c H. left. exact (stars_get _ _ _ H).
Qed.

(** The [--ollama-model] argument never decides the model of an Ollama
    summary: [load_config] always has an ["ollama_model"] entry. *)
Theorem summary_ollama_model_ignores_arg (f : config_file) (a b : string) :
  summary_ollama_model f a = summary_ollama_model f b /\
  is_Some (load_config f !! "ollama_model"%string).
Proof.
  assert (H : is_Some (load_config f !! "ollama_model"%string))
    by (apply (load_config_has_defaults f _ (JStr "vicuna:7b")); reflexivity).
  split; [|exact H]. unfold summary_ollama_model.
  destruct H as [v ->]. reflexivity.
Qed.

(** Without a configuration file (or with an unreadable one) the DeepSeek
    path stops with [ValueError]; after [--set-api-key] with a non-empty
    key it uses that key. *)
Theorem deepseek_api_key_set (f : config_file) (key : string) :
  key <> ""%string ->
  deepseek_api_key FileMissing = None /\ deepseek_api_key FileUnreadable = None /\
  deepseek_api_key (set_config_value f "deepseek_api_key" (JStr key)) = Some (JStr key).
Proof.
  intros Hk. split; [reflexivity|]. split; [reflexivity|].
  assert (Ht : truthy (JStr key) = true).
  { simpl. apply String.eqb_neq in Hk. rewrite Hk. reflexivity. }
  unfold deepseek_api_key, set_config_value. rewrite Ht.
  rewrite load_config_insert, lookup_insert_eq, Ht. reflexivity.
Qed.

Lemma deepseek_api_key_set_witness :
  deepseek_api_key (set_config_value FileMissing "deepseek_api_key" (JStr "sk-abc"))
    = Some (JStr "sk-abc").
Proof. apply (deepseek_api_key_set FileMissing "sk-abc"). discriminate. Defined.

(* ===================================================================== *)
(** ** Proofs: chunked LLM summaries and ranking *)

Lemma summary_chunks_loop_ok (request : nat -> string -> res string) (chunks : list string) :
  forall i acc,
  (forall k c e, nth_error chunks k = Some c -> request (i + k)%nat c = Raise e ->
                 is_request_exception e = true) ->
  summary_chunks_loop request i chunks acc =
  Ok (acc ++ map (fun p => chunk_section (fst p) (section_body request (fst p) (snd p)))
                 (combine (seq i (length chunks)) chunks)).
Proof.
  induction chunks as [|c cs IH]; intros i acc H; simpl.
  - rewrite app_nil_r. reflexivity.
  - assert (H0 := H 0%nat c). rewrite Nat.add_0_r in H0. unfold section_body at 1.
    destruct (request i c) as [s|e] eqn:E.
    + rewrite IH, <- app_assoc; [reflexivity|].
      intros k c' e' Hk Hr. apply (H (S k) c' e' Hk).
      replace (i + S k)%nat with (S i + k)%nat by lia. exact Hr.
    + rewrite (H0 e eq_refl eq_refl).
      rewrite IH, <- app_assoc; [reflexivity|].
      intros k c' e' Hk Hr. apply (H (S k) c' e' Hk).
      replace (i + S k)%nat with (S i + k)%nat by lia. exact Hr.
Qed.

Lemma summary_chunks_loop_fatal (request : nat -> string -> res string) (e : exn)
    (chunks : list string) :
  forall i acc k c,
  nth_error chunks k = Some c -> request (i + k)%nat c = Raise e ->
  is_request_exception e = false ->
  (forall j c' e', (j < k)%nat -> nth_error chunks j = Some c' ->
                   request (i + j)%nat c' = Raise e' -> is_request_exception e' = true) ->
  summary_chunks_loop request i chunks acc = Raise e.
Proof.
  induction chunks as [|c0 cs IH]; intros i acc k c Hk He Hne Hbefore; [destruct k; discriminate|].
  simpl. destruct k as [|k].
  - simpl in Hk. injection Hk as <-. rewrite Nat.add_0_r in He. rewrite He, Hne. reflexivity.
  - assert (Hprev : forall e', request i c0 = Raise e' -> is_request_exception e' = true).
    { intros e' H'. apply (Hbefore 0%nat c0 e'); [lia|reflexivity|]. rewrite Nat.add_0_r. exact H'. }
    assert (Hrest : summary_chunks_loop request (S i) cs
                      (acc ++ [chunk_section i (section_body request i c0)]) = Raise e).
    { apply (IH (S i) _ k c Hk); [replace (S i + k)%nat with (i + S k)%nat by lia; exact He|exact Hne|].
      intros j c' e' Hj Hc' Hr. apply (Hbefore (S j) c' e'); [lia|exact Hc'|].
      replace (i + S j)%nat with (S i + j)%nat by lia. exact Hr. }
    unfold section_body in Hrest.
    destruct (request i c0) as [s|e0] eqn:E; [exact Hrest|].
    rewrite (Hprev e0 eq_refl). exact Hrest.
Qed.

Lemma insert_desc_perm {A} (key : A -> Q) (x : A) (l : list A) :
  insert_desc key x l ≡ₚ x :: l.
Proof.
  induction l as [|y l IH]; simpl; [reflexivity|].
  destruct (negb (Qle_bool (key x) (key y))); [reflexivity|].
  rewrite IH. apply Permutation_swap.
Qed.

Lemma insert_desc_sorted {A} (key : A -> Q) (x : A) (l : list A) :
  StronglySorted (fun a b => (key b <= key a)%Q) l ->
  StronglySorted (fun a b => (key b <= key a)%Q) (insert_desc key x l).
Proof.
  induction l as [|y l IH]; intros H; simpl.
  - repeat constructor.
  - apply StronglySorted_inv in H as [Hl Hy].
    destruct (Qle_bool (key x) (key y)) eqn:E; simpl.
    + apply Qle_bool_iff in E. constructor; [exact (IH Hl)|].
      apply List.Forall_forall. intros z Hz.
      apply (Permutation_in _ (insert_desc_perm key x l)) in Hz as [<-|Hz]; [exact E|].
      exact (proj1 (List.Forall_forall _ _) Hy z Hz).
    + assert (Hyx : (key y < key x)%Q).
      { apply Qnot_le_lt. intros Hc. apply Qle_bool_iff in Hc. congruence. }
      constructor; [constructor; assumption|]. constructor; [apply Qlt_le_weak, Hyx|].
      apply List.Forall_forall. intros z Hz.
      apply (Qle_trans _ (key y)); [|apply Qlt_le_weak, Hyx].
      exact (proj1 (List.Forall_forall _ _) Hy z Hz).
Qed.

Lemma sorted_desc_spec {A} (key : A -> Q) (l : list A) :
  sorted_desc key l ≡ₚ l /\
  StronglySorted (fun a b => (key b <= key a)%Q) (sorted_desc key l).
Proof.
  unfold sorted_desc.
  assert (G : forall acc, StronglySorted (fun a b => (key b <= key a)%Q) acc ->
    fold_left (fun acc x => insert_desc key x acc) l acc ≡ₚ l ++ acc /\
    StronglySorted (fun a b => (key b <= key a)%Q)
      (fold_left (fun acc x => insert_desc key x acc) l acc)).
  { induction l as [|x l IH]; intros acc Hacc; simpl; [split; [reflexivity|exact Hacc]|].
    destruct (IH (insert_desc key x acc) (insert_desc_sorted key x acc Hacc)) as [Hp Hs].
    split; [|exact Hs]. rewrite Hp, insert_desc_perm. symmetry. apply Permutation_middle. }
  destruct (G [] (SSorted_nil _)) as [Hp Hs]. rewrite app_nil_r in Hp. split; assumption.
Qed.

(* ===================================================================== *)
(** ** Extra properties: chunked LLM summaries *)

(** When no chunk's request fails with anything but a [RequestException],
    the chunked summary has one section per chunk, in order, numbered
    from 1; a failed chunk gets the error placeholder and the loop goes
    on. *)
Theorem chunked_summary_sections (request : nat -> string -> res string)
    (transcription : string) (chunk_size : Z) :
  (forall k c e, nth_error (chunk_text transcription chunk_size) k = Some c ->
     request (S k) c = Raise e -> is_request_exception e = true) ->
  chunked_summary request transcription chunk_size =
  Ok ("# Detailed Summary" ++ newline ++ newline ++
      String.concat newline
        (map (fun p => chunk_section (fst p) (section_body request (fst p) (snd p)))
           (combine (seq 1 (length (chunk_text transcription chunk_size)))
                    (chunk_text transcription chunk_size))))%string.
Proof.
  intros H. unfold chunked_summary. rewrite summary_chunks_loop_ok; [reflexivity|].
  intros k c e Hk. exact (H k c e Hk).
Qed.

Lemma chunked_summary_sections_witness :
  chunked_summary (fun i _ => if Nat.eqb i 2 then Raise RequestException else Ok "ok"%string)
    "A b. C d. E f." 2 =
  Ok ("# Detailed Summary" ++ newline ++ newline ++
      chunk_section 1 "ok" ++ newline ++ chunk_section 2 chunk_error_text ++ newline ++
      chunk_section 3 "ok")%string.
Proof.
  rewrite chunked_summary_sections.
  - vm_compute. reflexivity.
  - intros k c e _. destruct (Nat.eqb (S k) 2); intros H; [injection H as <-; reflexivity|discriminate].
Defined.

(** An exception other than a [RequestException] in a chunk's request
    (a missing ["choices"] key, say) aborts the whole summary with that
    exception, when every earlier chunk went through. *)
Theorem chunked_summary_fatal (request : nat -> string -> res string)
    (transcription : string) (chunk_size : Z) (k : nat) (c : string) (e : exn) :
  nth_error (chunk_text transcription chunk_size) k = Some c ->
  request (S k) c = Raise e ->
  is_request_exception e = false ->
  (forall j c' e', (j < k)%nat -> nth_error (chunk_text transcription chunk_size) j = Some c' ->
     request (S j) c' = Raise e' -> is_request_exception e' = true) ->
  chunked_summary request transcription chunk_size = Raise e.
Proof.
  intros Hk He Hne Hb. unfold chunked_summary.
  rewrite (summary_chunks_loop_fatal request e _ 1 [] k c Hk He Hne Hb). reflexivity.
Qed.

Lemma chunked_summary_fatal_witness :
  chunked_summary (fun i _ => if Nat.eqb i 2 then Raise OtherException
                              else if Nat.eqb i 1 then Raise RequestException
                              else Ok "ok"%string)
    "A b. C d. E f." 2 = Raise OtherException.
Proof.
  apply (chunked_summary_fatal _ _ _ 1 "C d."); [vm_compute; reflexivity|reflexivity|reflexivity|].
  intros j c' e' Hj _. destruct j as [|j]; [|lia]. simpl. intros H. injection H as <-. reflexivity.
Defined.

(* ===================================================================== *)
(** ** Extra properties: extractive selection *)

(** The heuristic path ranks the scored sentences by non-increasing score
    (a permutation of them) and keeps the first [max(3, n // 3)]: the
    summary's sentences come in score order and none scores below a
    sentence left out. *)
Theorem fallback_selected_top (transcription : string) :
  exists ranked,
    ranked ≡ₚ scored_sentences transcription /\
    StronglySorted (fun p q => (snd q <= snd p)%Q) ranked /\
    fallback_selected transcription =
      map fst (firstn (target_sentences (length (scored_sentences transcription))) ranked).
Proof.
  destruct (sorted_desc_spec snd (scored_sentences transcription)) as [Hp Hs].
  exists (sorted_desc snd (scored_sentences transcription)). split; [exact Hp|].
  split; [exact Hs|]. reflexivity.
Qed.

(** The same for the spaCy path, over the sentences that got a score. *)
Theorem spacy_selected_top (STOP_WORDS : list string) (doc : doc_t) :
  exists ranked,
    ranked ≡ₚ sentence_scores STOP_WORDS doc /\
    StronglySorted (fun p q => (snd q <= snd p)%Q) ranked /\
    spacy_selected STOP_WORDS doc =
      map (fun p => strip (span_text (fst p))) (firstn (target_sentences (length doc)) ranked).
Proof.
  destruct (sorted_desc_spec snd (sentence_scores STOP_WORDS doc)) as [Hp Hs].
  exists (sorted_desc snd (sentence_scores STOP_WORDS doc)). split; [exact Hp|].
  split; [exact Hs|]. reflexivity.
Qed.
